(** * openstack_dashboard.api.nova: the compute facade of the dashboard

    A shallow embedding of [openstack_dashboard/api/nova.py].  The remote
    compute service and the client library are an oracle that answers each
    library call from the history of calls made so far; the facade functions
    are written in a small state-and-exception monad over the observable
    world (the memoisation cache, the dictionary objects shared with the
    caller, and the trace of library calls). *)

From Stdlib Require Import ZArith Lia.
From stdpp Require Import base option list gmap sets strings pretty.

Local Open Scope string_scope.
Local Open Scope Z_scope.
Local Open Scope list_scope.

(** ** Python values, exceptions and results *)

(** The values stored in a [search_opts] dictionary. *)
Inductive pyval :=
| PyNone
| PyBool (b : bool)
| PyInt (z : Z)
| PyStr (s : string).

#[global] Instance pyval_eq_dec : EqDecision pyval.
Proof. solve_decision. Defined.

(** Python truthiness, as tested by [if paginate:]. *)
Definition truthy (v : pyval) : bool :=
  match v with
  | PyNone => false
  | PyBool b => b
  | PyInt z => negb (z =? 0)
  | PyStr s => negb (String.eqb s "")
  end.

(** The exceptions that reach this module.  [ClientException] is
    [novaclient.exceptions.ClientException] (an HTTP status code and a
    message); [PyException] is the builtin [Exception] raised with a message;
    [LibraryError] stands for any other exception coming out of the client
    library that is not a [ClientException]. *)
Inductive exn :=
| ClientException (code : Z) (message : string)
| PyException (message : string)
| AttributeError (attr : string)
| KeyError (key : string)
| IndexError (message : string)
| LibraryError (what : string).

#[global] Instance exn_eq_dec : EqDecision exn.
Proof. solve_decision. Defined.

Inductive result (A : Type) :=
| Ok (a : A)
| Raise (e : exn).
Arguments Ok {A} a.
Arguments Raise {A} e.

(** ** The state-and-exception monad *)

Definition M (S A : Type) : Type := S → result A * S.

#[global] Instance M_ret {S} : MRet (M S) := λ A a s, (Ok a, s).
#[global] Instance M_bind {S} : MBind (M S) := λ A B f m s,
  match m s with
  | (Ok a, s') => f a s'
  | (Raise e, s') => (Raise e, s')
  end.

Definition raise {S A} (e : exn) : M S A := λ s, (Raise e, s).
Definition get_state {S} : M S S := λ s, (Ok s, s).
Definition modify {S} (f : S → S) : M S unit := λ s, (Ok tt, f s).

(** [try: m except <handler>]: the handler says which exceptions it catches;
    the state reached when the exception was raised is kept. *)
Definition try_except {S A} (m : M S A) (handler : exn → option (M S A)) : M S A :=
  λ s, match m s with
       | (Ok a, s') => (Ok a, s')
       | (Raise e, s') =>
           match handler e with
           | Some k => k s'
           | None => (Raise e, s')
           end
       end.

(** [for x in l: body x]. *)
Fixpoint for_each {S A} (l : list A) (body : A → M S unit) : M S unit :=
  match l with
  | [] => mret tt
  | x :: l' => _ ← body x; for_each l' body
  end.

(** A loop that threads the loop-carried local variables [acc]. *)
Fixpoint for_fold {S A B} (l : list A) (body : B → A → M S B) (acc : B) : M S B :=
  match l with
  | [] => mret acc
  | x :: l' => acc' ← body acc x; for_fold l' body acc'
  end.

(** Reading and writing the local variables of a function whose state is a
    pair of its locals and the world, and running a world action in it. *)
Definition get_local {L W} : M (L * W) L := λ s, (Ok (fst s), s).
Definition set_local {L W} (l : L) : M (L * W) unit := λ s, (Ok tt, (l, snd s)).
Definition in_world {L W A} (m : M W A) : M (L * W) A :=
  λ s, let '(r, w) := m (snd s) in (r, (fst s, w)).
Definition with_locals {L W A} (l : L) (m : M (L * W) A) : M W A :=
  λ w, let '(r, s) := m (l, w) in (r, snd s).

(** ** Strings *)

(** [s.startswith(p)] and [s.endswith(p)]. *)
Definition startswith (s p : string) : bool := String.prefix p s.
Definition endswith (s p : string) : bool :=
  (String.length p <=? String.length s)%nat &&
  String.eqb (String.substring (String.length s - String.length p) (String.length p) s) p.

(** ["%d" % z]. *)
Definition fmt_d (z : Z) : string := pretty z.

(** [sep.join(l)]. *)
Fixpoint join (sep : string) (l : list string) : string :=
  match l with
  | [] => ""
  | [x] => x
  | x :: l' => x +:+ sep +:+ join sep l'
  end.

(** [l.pop(-1)] on a list: the list without its last element. *)
Definition list_pop_last {A} (l : list A) : result (list A) :=
  match l with
  | [] => Raise (IndexError "pop from empty list")
  | _ => Ok (removelast l)
  end.

(** ** The data of the facade *)

Record User := {
  username : string;
  token_id : string;
  tenant_id : string;
}.

(** A request context.  [req_id] is the identity of the request object. *)
Record Request := {
  req_id : nat;
  user : User;
}.

(** [django.conf.settings], the entries this module reads; [None] is an
    entry that is not set, for which [getattr] takes its default. *)
Record Settings := {
  OPENSTACK_SSL_NO_VERIFY : option bool;
  OPENSTACK_SSL_CACERT : option string;
  DEBUG : bool;
  API_RESULT_LIMIT : option Z;
}.

(** [novaclient.v1_1.client.Client]: [client_id] is the identity of the
    handle object, the other fields are what [novaclient] passes or sets. *)
Record Client := {
  client_id : nat;
  c_username : string;
  c_api_key : string;
  c_project_id : string;
  c_auth_url : string;
  c_insecure : bool;
  c_cacert : option string;
  c_http_log_debug : bool;
  c_auth_token : option string;
  c_management_url : option string;
}.

(** [novaclient.security_groups.SecurityGroup] and its wrapper. *)
Record SecurityGroupResource := {
  sg_id : string;
  sg_name : string;
  sg_description : string;
  sg_tenant_id : string;
}.

Record SecurityGroup := { sg_apiresource : SecurityGroupResource }.

(** [SecurityGroupManager]: the request and the handle its initialiser
    stores. *)
Record SecurityGroupManager := {
  sgm_request : Request;
  sgm_client : Client;
}.

(** [novaclient.servers.Server] and its wrapper, which keeps the request. *)
Record ServerResource := {
  server_id : string;
  server_name : string;
}.

Record Server := {
  server_apiresource : ServerResource;
  server_request : Request;
}.

(** [novaclient.hypervisors.Hypervisor]: the [servers] attribute is absent
    ([None]) when the hypervisor has no servers; each server is a dictionary. *)
Record HypervisorResource := {
  hypervisor_hostname : string;
  hypervisor_id : Z;
  hypervisor_servers : option (list (gmap string string));
}.

Record Hypervisor := { hyp_apidict : HypervisorResource }.

(** [novaclient.limits.AbsoluteLimit]. *)
Record AbsoluteLimit := {
  limit_name : string;
  limit_value : Z;
}.

(** A value of the dictionary [tenant_absolute_limits] returns: an integer or
    [float("inf")]. *)
Inductive limit_val :=
| LimInt (z : Z)
| LimInf.

#[global] Instance limit_val_eq_dec : EqDecision limit_val.
Proof. solve_decision. Defined.

Record Flavor := {
  fl_id : string;
  fl_name : string;
}.

Record Aggregate := {
  agg_id : Z;
  agg_name : string;
}.

(** ** The client library *)

(** One event per method of the client library that is invoked, with the
    arguments it is given. *)
Inductive call :=
| SecurityGroupsList
| ClientGet (url : string)
| ServersAddSecurityGroup (instance_id group : string)
| ServersRemoveSecurityGroup (instance_id group : string)
| HypervisorsSearch (host : string) (servers : bool)
| ServersEvacuate (uuid : string) (target : option string) (on_shared_storage : bool)
| ServersList (detailed : bool) (search_opts : gmap string pyval)
| LimitsGet (reserved : bool)
| FlavorsCreate (name : string) (memory vcpu disk : Z) (flavorid : string)
    (ephemeral swap : Z) (is_public : bool)
| FlavorsGet (flavor : string)
| FlavorsDelete (flavor : string)
| FlavorSetKeys (flavor : string) (metadata : gmap string string)
| AggregatesList
| AggregatesGetDetails (aggregate : Z)
| AggregatesGet (aggregate : Z).

#[global] Instance call_eq_dec : EqDecision call.
Proof. solve_decision. Defined.

(** The behaviour of the library and of the remote service behind it: each
    method answers from the history of calls, the current one last. *)
Record Service := {
  svc_security_groups_list : list call → result (list SecurityGroupResource);
  svc_client_get : list call → result (option (gmap string (list SecurityGroupResource)));
  svc_add_security_group : list call → result unit;
  svc_remove_security_group : list call → result unit;
  svc_hypervisors_search : list call → result (list HypervisorResource);
  svc_servers_evacuate : list call → result unit;
  svc_servers_list : list call → result (list ServerResource);
  svc_limits_get : list call → result (list AbsoluteLimit);
  svc_flavors_create : list call → result Flavor;
  svc_flavors_get : list call → result Flavor;
  svc_flavors_delete : list call → result unit;
  svc_flavor_set_keys : list call → result unit;
  svc_aggregates_list : list call → result (list Aggregate);
  svc_aggregates_get_details : list call → result Aggregate;
  svc_aggregates_get : list call → result Aggregate;
}.

(** ** The world *)

(** What the facade can change: the cache of the [memoized] decorator on
    [novaclient], the dictionary objects (by identity, so that a dictionary
    passed by the caller is shared with it), the next free object identity,
    and the trace of library calls. *)
Record world := World {
  novaclient_cache : gmap nat Client;
  dicts : gmap nat (gmap string pyval);
  next_obj : nat;
  trace : list call;
}.

Definition set_cache (f : gmap nat Client → gmap nat Client) (w : world) : world :=
  World (f (novaclient_cache w)) (dicts w) (next_obj w) (trace w).
Definition set_dicts (f : gmap nat (gmap string pyval) → gmap nat (gmap string pyval))
    (w : world) : world :=
  World (novaclient_cache w) (f (dicts w)) (next_obj w) (trace w).
Definition set_next_obj (n : nat) (w : world) : world :=
  World (novaclient_cache w) (dicts w) n (trace w).
Definition set_trace (t : list call) (w : world) : world :=
  World (novaclient_cache w) (dicts w) (next_obj w) t.

(** A fresh object identity. *)
Definition new_object : M world nat :=
  λ w, (Ok (next_obj w), set_next_obj (S (next_obj w)) w).

(** A method of the client library invoked through the handle [c]: the call
    is appended to the trace and the library answers. *)
Definition library_call {A} (c : Client) (ev : call) (answer : list call → result A)
    : M world A :=
  λ w, let t := trace w ++ [ev] in (answer t, set_trace t w).

(** Dictionary objects. *)
Definition dict_new : M world nat :=
  d ← new_object;
  _ ← modify (set_dicts (insert d ∅));
  mret d.

Definition dict_read (d : nat) : M world (gmap string pyval) :=
  w ← get_state; mret (default ∅ (dicts w !! d)).

(** [k in d]. *)
Definition dict_contains (d : nat) (k : string) : M world bool :=
  m ← dict_read d; mret (bool_decide (is_Some (m !! k))).

(** [d.pop(k)]. *)
Definition dict_pop (d : nat) (k : string) : M world pyval :=
  m ← dict_read d;
  match m !! k with
  | Some v => _ ← modify (set_dicts (insert d (delete k m))); mret v
  | None => raise (KeyError k)
  end.

(** [d[k] = v]. *)
Definition dict_setitem (d : nat) (k : string) (v : pyval) : M world unit :=
  m ← dict_read d;
  modify (set_dicts (insert d (<[k:=v]> m))).

(** [d[k]] on a dictionary value. *)
Definition getitem (d : gmap string string) (k : string) : result string :=
  match d !! k with
  | Some v => Ok v
  | None => Raise (KeyError k)
  end.

Definition lift_result {S A} (r : result A) : M S A := λ s, (r, s).

(** ** Usage records and other computations without the library *)

(** The exceptions of the computations that do not go through the client
    library. *)
Inductive py_error :=
| PyKeyError (key : string)
| PyTypeError (message : string)
| UnknownFormFieldTypeException.

Inductive outcome (A : Type) :=
| Value (a : A)
| Error (e : py_error).
Arguments Value {A} a.
Arguments Error {A} e.

#[global] Instance outcome_ret : MRet outcome := λ A a, Value a.
#[global] Instance outcome_bind : MBind outcome := λ A B f m,
  match m with
  | Value a => f a
  | Error e => Error e
  end.

(** A loop over [l] that threads [acc] and stops at the first exception. *)
Fixpoint fold_outcome {A B} (f : B → A → outcome B) (acc : B) (l : list A) : outcome B :=
  match l with
  | [] => Value acc
  | x :: l' =>
      match f acc x with
      | Value acc' => fold_outcome f acc' l'
      | Error e => Error e
      end
  end.

(** The values of a server usage dictionary: a scalar, or the list of the
    usages of its secondary instances. *)
Inductive scalar :=
| SNone
| SInt (z : Z)
| SStr (s : string).

Inductive uval :=
| UScalar (v : scalar)
| UList (l : list (gmap string scalar)).

#[global] Instance scalar_eq_dec : EqDecision scalar.
Proof. solve_decision. Defined.
#[global] Instance uval_eq_dec : EqDecision uval.
Proof. solve_decision. Defined.

(** [NovaUsage], with the [server_usages] attribute of the wrapped object. *)
Record NovaUsage := { server_usages : list (gmap string uval) }.

(** [d[k]]. *)
Definition subscript {V} (d : gmap string V) (k : string) : outcome V :=
  match d !! k with
  | Some v => Value v
  | None => Error (PyKeyError k)
  end.

(** [s['ended_at'] is None]. *)
Definition ended_at_is_none (s : gmap string uval) : outcome bool :=
  v ← subscript s "ended_at"; mret (bool_decide (v = UScalar SNone)).

(** [acc + v], as [sum] computes it from the integer [acc]. *)
Definition py_add (acc : Z) (v : uval) : outcome Z :=
  match v with
  | UScalar (SInt z) => Value (acc + z)
  | _ => Error (PyTypeError "unsupported operand type(s) for +")
  end.

(** [len(v)]. *)
Definition py_len (v : uval) : outcome Z :=
  match v with
  | UList l => Value (Z.of_nat (length l))
  | UScalar (SStr s) => Value (Z.of_nat (String.length s))
  | UScalar _ => Error (PyTypeError "object has no len()")
  end.

(** [sum(1 for s in self.server_usages if s['ended_at'] is None)]. *)
Definition total_active_instances (self : NovaUsage) : outcome Z :=
  fold_outcome (λ acc s,
    active ← ended_at_is_none s;
    if active : bool then mret (acc + 1) else mret acc) 0 (server_usages self).

(** [sum(s[key] for s in self.server_usages if s['ended_at'] is None)]. *)
Definition sum_of_active (key : string) (self : NovaUsage) : outcome Z :=
  fold_outcome (λ acc s,
    active ← ended_at_is_none s;
    if active : bool then v ← subscript s key; py_add acc v else mret acc)
    0 (server_usages self).

Definition vcpus : NovaUsage → outcome Z := sum_of_active "vcpus".
Definition local_gb : NovaUsage → outcome Z := sum_of_active "local_gb".
Definition memory_mb : NovaUsage → outcome Z := sum_of_active "memory_mb".

(** [sum(len(s.get('ft_secondary_usage', [])) for s in self.server_usages
        if s['ended_at'] is None)]. *)
Definition ft_total_secondary_instances (self : NovaUsage) : outcome Z :=
  fold_outcome (λ acc s,
    active ← ended_at_is_none s;
    if active : bool then
      n ← py_len (default (UList []) (s !! "ft_secondary_usage"));
      mret (acc + n)
    else mret acc) 0 (server_usages self).

(** [for fts in v: acc += fts['memory_mb']]: a list is iterated over its
    dictionaries; a string over its characters, which cannot be subscripted
    by a key; other values are not iterable. *)
Definition sum_secondary_memory (acc : Z) (v : uval) : outcome Z :=
  match v with
  | UList l =>
      fold_outcome (λ acc fts,
        m ← subscript fts "memory_mb"; py_add acc (UScalar m)) acc l
  | UScalar (SStr s) =>
      if String.eqb s "" then Value acc
      else Error (PyTypeError "string indices must be integers")
  | UScalar _ => Error (PyTypeError "object is not iterable")
  end.

(** [sum(fts['memory_mb'] for s in self.server_usages
        if s['ended_at'] is None and 'ft_secondary_usage' in s
        for fts in s['ft_secondary_usage'])]. *)
Definition ft_secondary_memory_mb (self : NovaUsage) : outcome Z :=
  fold_outcome (λ acc s,
    active ← ended_at_is_none s;
    if (active : bool) && bool_decide (is_Some (s !! "ft_secondary_usage")) then
      v ← subscript s "ft_secondary_usage";
      sum_secondary_memory acc v
    else mret acc) 0 (server_usages self).

(** A server that has ended: its [ended_at] is set. *)
Definition has_ended (s : gmap string uval) : Prop :=
  ∃ v, s !! "ended_at" = Some v ∧ v ≠ UScalar SNone.

(** A measure of a usage record adds up over the concatenation of the
    server usages. *)
Definition additive (measure : NovaUsage → outcome Z) : Prop :=
  ∀ usages1 usages2 a b,
    measure {| server_usages := usages1 |} = Value a →
    measure {| server_usages := usages2 |} = Value b →
    measure {| server_usages := usages1 ++ usages2 |} = Value (a + b).

(** [r] with [k] added to its value. *)
Definition shifted (k : Z) (r : outcome Z) : outcome Z :=
  match r with
  | Value v => Value (v + k)
  | Error e => Error e
  end.

(** ** The registry of form field classes *)

(** A class is known by its name; a locator is a pair of a strategy and a
    selector. *)
Definition locator : Type := string * string.

(** [FieldFactory.register_field_cls]: the outcome and the registry
    [FORM_FIELDS_TYPES] after the call.  The class is added before the set of
    base classes is built, which raises [TypeError] when [base_classes] is
    left to its default [None]. *)
Definition register_field_cls (registry : gset string) (field_class : string)
    (base_classes : option (list string)) : outcome unit * gset string :=
  let registry := {[ field_class ]} ∪ registry in
  match base_classes with
  | Some bases => (Value (), registry ∖ list_to_set bases)
  | None => (Error (PyTypeError "'NoneType' object is not iterable"), registry)
  end.

(** [MetaBaseFormFieldRegion.__init__]: defining a class [cls] with the
    bases [bases] registers it. *)
Definition define_field_class (registry : gset string) (cls : string * list string)
    : gset string :=
  (register_field_cls registry cls.1 (Some cls.2)).2.

(** The registry after the class definitions [defs], in order. *)
Definition define_field_classes (registry : gset string)
    (defs : list (string * list string)) : gset string :=
  foldl define_field_class registry defs.

(** The loop of [FieldFactory.make_form_field] over the registered types in
    the order [types]: the first type whose element is present. *)
Fixpoint first_present (present : locator → bool)
    (element_locator : string → option locator) (types : list string)
    : outcome string :=
  match types with
  | [] => Error UnknownFormFieldTypeException
  | form_type :: types' =>
      match element_locator form_type with
      | None => Error (PyTypeError "argument after * must be an iterable, not NoneType")
      | Some loc =>
          if present loc then Value form_type
          else first_present present element_locator types'
      end
  end.

(** The classes [forms.py] defines under [MetaBaseFormFieldRegion], in
    order, with their bases, and their [_element_locator]. *)
Definition form_field_classes : list (string * list string) :=
  [ ("BaseFormFieldRegion", ["BaseRegion"]);
    ("CheckBoxFormFieldRegion", ["BaseFormFieldRegion"]);
    ("ChooseFileFormFieldRegion", ["BaseFormFieldRegion"]);
    ("BaseTextFormFieldRegion", ["BaseFormFieldRegion"]);
    ("TextInputFormFieldRegion", ["BaseTextFormFieldRegion"]);
    ("PasswordInputFormFieldRegion", ["BaseTextFormFieldRegion"]);
    ("TextAreaFormFieldRegion", ["BaseTextFormFieldRegion"]);
    ("IntegerFormFieldRegion", ["BaseFormFieldRegion"]);
    ("SelectFormFieldRegion", ["BaseFormFieldRegion"]) ].

Definition form_field_locator (cls : string) : option locator :=
  if String.eqb cls "CheckBoxFormFieldRegion"
  then Some ("css selector", "div > label > input[type=checkbox]")
  else if String.eqb cls "ChooseFileFormFieldRegion"
  then Some ("css selector", "div > input[type=file]")
  else if String.eqb cls "TextInputFormFieldRegion"
  then Some ("css selector", "div > input[type=text]")
  else if String.eqb cls "PasswordInputFormFieldRegion"
  then Some ("css selector", "div > input[type=password]")
  else if String.eqb cls "TextAreaFormFieldRegion"
  then Some ("css selector", "div > textarea")
  else if String.eqb cls "IntegerFormFieldRegion"
  then Some ("css selector", "div > input[type=number]")
  else if String.eqb cls "SelectFormFieldRegion"
  then Some ("css selector", "div > select")
  else None.

(** ** Concrete scenarios *)

Module Scenario.

Definition settings : Settings :=
  {| OPENSTACK_SSL_NO_VERIFY := None; OPENSTACK_SSL_CACERT := None;
     DEBUG := false; API_RESULT_LIMIT := None |}.

(** A deployment whose result limit is three rows. *)
Definition small_limit : Settings :=
  {| OPENSTACK_SSL_NO_VERIFY := None; OPENSTACK_SSL_CACERT := None;
     DEBUG := false; API_RESULT_LIMIT := Some 3 |}.

Definition url_for (request : Request) (service_type : string) : string :=
  "http://nova.example:8774/v2/" +:+ tenant_id (user request).

Definition demo : User :=
  {| username := "demo"; token_id := "token-1"; tenant_id := "tenant-1" |}.

Definition request : Request := {| req_id := 1; user := demo |}.
Definition other_request : Request := {| req_id := 2; user := demo |}.

Definition group (id name : string) : SecurityGroupResource :=
  {| sg_id := id; sg_name := name; sg_description := ""; sg_tenant_id := "tenant-1" |}.

Definition row (id : string) : ServerResource :=
  {| server_id := id; server_name := "vm-" +:+ id |}.

Definition guest (name uuid : string) : gmap string string :=
  {[ "name" := name; "uuid" := uuid ]}.

Definition hypervisors : list HypervisorResource :=
  [ {| hypervisor_hostname := "node-1"; hypervisor_id := 1;
       hypervisor_servers := Some [guest "vm-a" "uuid-a"; guest "vm-b" "uuid-b"] |};
    {| hypervisor_hostname := "node-2"; hypervisor_id := 2;
       hypervisor_servers := None |};
    {| hypervisor_hostname := "node-3"; hypervisor_id := 3;
       hypervisor_servers := Some [guest "vm-c" "uuid-c"] |} ].

Definition limits : list AbsoluteLimit :=
  [ {| limit_name := "maxTotalInstances"; limit_value := 10 |};
    {| limit_name := "maxTotalCores"; limit_value := -1 |};
    {| limit_name := "totalRAMUsed"; limit_value := -512 |} ].

(** Whether the call being answered is the last of the history and satisfies
    [p]. *)
Definition answering (p : call → bool) (t : list call) : bool :=
  match last t with
  | Some ev => p ev
  | None => false
  end.

(** A service with groups A, B and C, where the instance has B and C, that
    lists [rows] as the servers.  When [refusing] is set it refuses to remove
    a security group (409) and to evacuate the server [uuid-b] (500). *)
Definition service (rows : list ServerResource) (refusing : bool) : Service :=
  {| svc_security_groups_list := λ _, Ok [group "1" "A"; group "2" "B"; group "3" "C"];
     svc_client_get := λ _,
       Ok (Some {[ "security_groups" := [group "2" "B"; group "3" "C"] ]});
     svc_add_security_group := λ _, Ok ();
     svc_remove_security_group := λ _,
       if refusing
       then Raise (ClientException 409 "Security group C (tenant-1) is in use")
       else Ok ();
     svc_hypervisors_search := λ _, Ok hypervisors;
     svc_servers_evacuate := λ t,
       if refusing &&
          answering (λ ev, match ev with
                           | ServersEvacuate uuid _ _ => String.eqb uuid "uuid-b"
                           | _ => false
                           end) t
       then Raise (ClientException 500 "Compute service of node-1 is still in use")
       else Ok ();
     svc_servers_list := λ _, Ok rows;
     svc_limits_get := λ _, Ok limits;
     svc_flavors_create := λ _, Ok {| fl_id := "42"; fl_name := "m1.demo" |};
     svc_flavors_get := λ _, Ok {| fl_id := "42"; fl_name := "m1.demo" |};
     svc_flavors_delete := λ _, Ok ();
     svc_flavor_set_keys := λ _, Ok ();
     svc_aggregates_list := λ _,
       Ok [ {| agg_id := 1; agg_name := "rack-1" |};
            {| agg_id := 2; agg_name := "rack-2" |} ];
     svc_aggregates_get_details := λ t,
       Ok {| agg_id := Z.of_nat (length t); agg_name := "details" |};
     svc_aggregates_get := λ _, Ok {| agg_id := 1; agg_name := "rack-1" |} |}.

(** A world whose dictionary 7 is the caller's [search_opts]. *)
Definition world_with (search_opts : gmap string pyval) : world :=
  World ∅ {[ 7%nat := search_opts ]} 8 [].

Definition paginated : gmap string pyval :=
  {[ "paginate" := PyBool true; "marker" := PyStr "vm-0" ]}.

Definition manager : SecurityGroupManager :=
  {| sgm_request := request;
     sgm_client := {| client_id := 0; c_username := "demo"; c_api_key := "token-1";
                      c_project_id := "tenant-1";
                      c_auth_url := "http://nova.example:8774/v2/tenant-1";
                      c_insecure := false; c_cacert := None;
                      c_http_log_debug := false;
                      c_auth_token := Some "token-1";
                      c_management_url := Some "http://nova.example:8774/v2/tenant-1" |} |}.

(** The rows of a full page at the default result limit. *)
Definition thousand_rows : list ServerResource := replicate 1000 (row "1").

(** [svc] with the library call number [n] (counted from 1 over the whole
    history) failing with [fault n] when that is an exception. *)
Definition faulty (fault : nat → option exn) (svc : Service) : Service :=
  let fail {A} (answer : list call → result A) (t : list call) : result A :=
    match fault (length t) with
    | Some e => Raise e
    | None => answer t
    end in
  {| svc_security_groups_list := fail (svc_security_groups_list svc);
     svc_client_get := fail (svc_client_get svc);
     svc_add_security_group := fail (svc_add_security_group svc);
     svc_remove_security_group := fail (svc_remove_security_group svc);
     svc_hypervisors_search := fail (svc_hypervisors_search svc);
     svc_servers_evacuate := fail (svc_servers_evacuate svc);
     svc_servers_list := fail (svc_servers_list svc);
     svc_limits_get := fail (svc_limits_get svc);
     svc_flavors_create := fail (svc_flavors_create svc);
     svc_flavors_get := fail (svc_flavors_get svc);
     svc_flavors_delete := fail (svc_flavors_delete svc);
     svc_flavor_set_keys := fail (svc_flavor_set_keys svc);
     svc_aggregates_list := fail (svc_aggregates_list svc);
     svc_aggregates_get_details := fail (svc_aggregates_get_details svc);
     svc_aggregates_get := fail (svc_aggregates_get svc) |}.

(** The fault that makes call number [n] fail with [e]. *)
Definition at_call (n : nat) (e : exn) (k : nat) : option exn :=
  if (k =? n)%nat then Some e else None.

Definition connection_refused : exn := LibraryError "ConnectionRefused".

(** [svc] with [hs] as the answer of the hypervisor search. *)
Definition with_hypervisors (hs : list HypervisorResource) (svc : Service) : Service :=
  {| svc_security_groups_list := svc_security_groups_list svc;
     svc_client_get := svc_client_get svc;
     svc_add_security_group := svc_add_security_group svc;
     svc_remove_security_group := svc_remove_security_group svc;
     svc_hypervisors_search := λ _, Ok hs;
     svc_servers_evacuate := svc_servers_evacuate svc;
     svc_servers_list := svc_servers_list svc;
     svc_limits_get := svc_limits_get svc;
     svc_flavors_create := svc_flavors_create svc;
     svc_flavors_get := svc_flavors_get svc;
     svc_flavors_delete := svc_flavors_delete svc;
     svc_flavor_set_keys := svc_flavor_set_keys svc;
     svc_aggregates_list := svc_aggregates_list svc;
     svc_aggregates_get_details := svc_aggregates_get_details svc;
     svc_aggregates_get := svc_aggregates_get svc |}.

(** A hypervisor whose second server entry has no [uuid]. *)
Definition damaged_hypervisors : list HypervisorResource :=
  [ {| hypervisor_hostname := "node-1"; hypervisor_id := 1;
       hypervisor_servers :=
         Some [guest "vm-a" "uuid-a"; {[ "name" := "vm-b" ]}; guest "vm-c" "uuid-c"] |} ].

Definition idle_hypervisors : list HypervisorResource :=
  [ {| hypervisor_hostname := "node-2"; hypervisor_id := 2;
       hypervisor_servers := None |};
    {| hypervisor_hostname := "node-4"; hypervisor_id := 4;
       hypervisor_servers := Some [] |} ].

(** Usages of a running server, of a server that has ended and lacks its
    figures, and of a running server with a secondary instance. *)
Definition running : gmap string uval :=
  {[ "ended_at" := UScalar SNone; "vcpus" := UScalar (SInt 2);
     "local_gb" := UScalar (SInt 20); "memory_mb" := UScalar (SInt 2048) ]}.

Definition ended : gmap string uval :=
  {[ "ended_at" := UScalar (SStr "2014-11-04T10:00:00") ]}.

Definition protected : gmap string uval :=
  {[ "ended_at" := UScalar SNone; "vcpus" := UScalar (SInt 1);
     "local_gb" := UScalar (SInt 10); "memory_mb" := UScalar (SInt 512);
     "ft_secondary_usage" := UList [ {[ "memory_mb" := SInt 512 ]} ] ]}.

End Scenario.

(** ** The facade *)

Section Facade.

(** The Django settings, the service-catalogue lookup [base.url_for], the
    page size [horizon.utils.functions.get_page_size] reads from the request,
    the behaviour of the client library, and the order in which a Python
    [set] of strings is iterated. *)
Variable settings : Settings.
Variable url_for : Request → string → string.
Variable get_page_size : Request → Z.
Variable nova : Service.
Variable set_order : gset string → list string.

(** Modelled from the spec: the decorator [horizon.utils.memoized.memoized],
    which is not part of these sources.  Given a request context, the handle
    memoized for this context is returned if one exists; otherwise one is
    constructed by the decorated function and memoized for the remainder of
    the context's lifetime, keyed on the identity of the request. *)
Definition memoized (func : Request → M world Client) (request : Request)
    : M world Client :=
  w ← get_state;
  match novaclient_cache w !! req_id request with
  | Some value => mret value
  | None =>
      value ← func request;
      _ ← modify (set_cache (insert (req_id request) value));
      mret value
  end.

(** [nova_client.Client(...)]: a new handle object. *)
Definition Client_new (username api_key project_id auth_url : string)
    (insecure : bool) (cacert : option string) (http_log_debug : bool)
    : M world Client :=
  i ← new_object;
  mret {| client_id := i; c_username := username; c_api_key := api_key;
          c_project_id := project_id; c_auth_url := auth_url;
          c_insecure := insecure; c_cacert := cacert;
          c_http_log_debug := http_log_debug;
          c_auth_token := None; c_management_url := None |}.

Definition set_auth (c : Client) (token url : string) : Client :=
  {| client_id := client_id c; c_username := c_username c;
     c_api_key := c_api_key c; c_project_id := c_project_id c;
     c_auth_url := c_auth_url c; c_insecure := c_insecure c;
     c_cacert := c_cacert c; c_http_log_debug := c_http_log_debug c;
     c_auth_token := Some token; c_management_url := Some url |}.

(** The body of [novaclient], under its decorator. *)
Definition novaclient_body (request : Request) : M world Client :=
  let insecure := default false (OPENSTACK_SSL_NO_VERIFY settings) in
  let cacert := OPENSTACK_SSL_CACERT settings in
  c ← Client_new (username (user request)) (token_id (user request))
        (tenant_id (user request)) (url_for request "compute")
        insecure cacert (DEBUG settings);
  mret (set_auth c (token_id (user request)) (url_for request "compute")).

Definition novaclient : Request → M world Client := memoized novaclient_body.

(** *** Hypervisor *)

(** [self._apidict.servers]. *)
Definition apidict_servers (h : HypervisorResource) : result (list (gmap string string)) :=
  match hypervisor_servers h with
  | Some servers => Ok servers
  | None => Raise (AttributeError "servers")
  end.

(** The property [Hypervisor.servers]. *)
Definition Hypervisor_servers {S} (self : Hypervisor) : M S (list (gmap string string)) :=
  let servers := [] in
  try_except (lift_result (apidict_servers (hyp_apidict self)))
             (λ _, Some (mret servers)).

(** *** SecurityGroupManager *)

Definition SecurityGroupManager_init (request : Request) : M world SecurityGroupManager :=
  c ← novaclient request;
  mret {| sgm_request := request; sgm_client := c |}.

Definition SecurityGroupManager_list (self : SecurityGroupManager)
    : M world (list SecurityGroup) :=
  groups ← library_call (sgm_client self) SecurityGroupsList
             (svc_security_groups_list nova);
  mret (map Build_SecurityGroup groups).

(** Truthiness of the body of a response: [None] and the empty dictionary
    are false. *)
Definition body_truthy {V} (body : option (gmap string V)) : bool :=
  match body with
  | Some b => negb (bool_decide (b = ∅))
  | None => false
  end.

Definition list_by_instance (self : SecurityGroupManager) (instance_id : string)
    : M world (list SecurityGroup) :=
  let security_groups := [] in
  let nclient := sgm_client self in
  body ← library_call nclient
           (ClientGet ("/servers/" +:+ instance_id +:+ "/os-security-groups"))
           (svc_client_get nova);
  if body_truthy body then
    let sg_objs := default [] (default ∅ body !! "security_groups") in
    mret (map Build_SecurityGroup sg_objs)
  else mret security_groups.

Definition sanitized_message (num_groups_to_modify : Z) : string :=
  "Failed to modify " +:+ fmt_d num_groups_to_modify +:+ " instance security groups".

(** The local variable [num_groups_to_modify] is the local state of the
    [try] block, so that the handler reads the value it has when the
    exception is raised. *)
Definition update_instance_security_group (self : SecurityGroupManager)
    (instance_id : string) (new_security_group_ids : list string) : M world bool :=
  all_groups ← try_except (SecurityGroupManager_list self)
    (λ _, Some (raise (PyException "Couldn't get security group list.")));
  let wanted_groups : gset string :=
    list_to_set (map (λ sg, sg_name (sg_apiresource sg))
      (filter (λ sg, sg_id (sg_apiresource sg) ∈ new_security_group_ids) all_groups)) in
  current_groups ← try_except (list_by_instance self instance_id)
    (λ _, Some (raise (PyException
       ("Couldn't get current security group list for instance " +:+ instance_id +:+ "."))));
  let current_group_names : gset string :=
    list_to_set (map (λ sg, sg_name (sg_apiresource sg)) current_groups) in
  let groups_to_add := wanted_groups ∖ current_group_names in
  let groups_to_remove := current_group_names ∖ wanted_groups in
  _ ← with_locals (Z.of_nat (size (groups_to_add ∪ groups_to_remove)))
    (try_except
       (_ ← for_each (set_order groups_to_add) (λ group,
              _ ← in_world (library_call (sgm_client self)
                     (ServersAddSecurityGroup instance_id group)
                     (svc_add_security_group nova));
              num_groups_to_modify ← get_local;
              set_local (num_groups_to_modify - 1));
        for_each (set_order groups_to_remove) (λ group,
              _ ← in_world (library_call (sgm_client self)
                     (ServersRemoveSecurityGroup instance_id group)
                     (svc_remove_security_group nova));
              num_groups_to_modify ← get_local;
              set_local (num_groups_to_modify - 1)))
       (λ err,
          match err with
          | ClientException code _ =>
              Some (num_groups_to_modify ← get_local;
                    raise (ClientException code (sanitized_message num_groups_to_modify)))
          | _ => None
          end));
  mret true.

(** *** Flavors *)

(** Truthiness of [metadata]: [None] and the empty dictionary are false. *)
Definition metadata_truthy (metadata : option (gmap string string)) : bool :=
  body_truthy metadata.

Definition flavor_extra_set (request : Request) (flavor_id : string)
    (metadata : option (gmap string string)) : M world (option unit) :=
  c ← novaclient request;
  flavor ← library_call c (FlavorsGet flavor_id) (svc_flavors_get nova);
  if negb (metadata_truthy metadata) then mret None
  else
    r ← library_call c (FlavorSetKeys (fl_id flavor) (default ∅ metadata))
          (svc_flavor_set_keys nova);
    mret (Some r).

Definition flavor_create (request : Request) (name : string) (memory vcpu disk : Z)
    (flavorid : string) (ephemeral swap : Z)
    (metadata : option (gmap string string)) (is_public : bool) : M world Flavor :=
  c ← novaclient request;
  flavor ← library_call c
             (FlavorsCreate name memory vcpu disk flavorid ephemeral swap is_public)
             (svc_flavors_create nova);
  _ ← (if metadata_truthy metadata
       then _ ← flavor_extra_set request (fl_id flavor) metadata; mret tt
       else mret tt);
  mret flavor.



(** *** Servers *)

Definition server_list (request : Request) (search_opts : option nat)
    (all_tenants : bool) : M world (list Server * bool) :=
  let page_size := get_page_size request in
  c ← novaclient request;
  let paginate := PyBool false in
  '(search_opts, paginate) ←
    match search_opts with
    | None => d ← dict_new; mret (d, paginate)
    | Some d =>
        present ← dict_contains d "paginate";
        if present : bool then
          paginate ← dict_pop d "paginate";
          _ ← (if truthy paginate
               then dict_setitem d "limit" (PyInt (page_size + 1))
               else mret tt);
          mret (d, paginate)
        else mret (d, paginate)
    end;
  _ ← (if all_tenants
       then dict_setitem search_opts "all_tenants" (PyBool true)
       else dict_setitem search_opts "project_id" (PyStr (tenant_id (user request))));
  opts ← dict_read search_opts;
  rows ← library_call c (ServersList true opts) (svc_servers_list nova);
  let servers := map (λ s, Build_Server s request) rows in
  let has_more_data := false in
  if truthy paginate && (page_size <? Z.of_nat (length servers)) then
    servers ← lift_result (list_pop_last servers);
    mret (servers, true)
  else if truthy paginate &&
          (Z.of_nat (length servers) =? default 1000 (API_RESULT_LIMIT settings)) then
    mret (servers, true)
  else mret (servers, has_more_data).

(** *** Hypervisors *)

(** Truthiness of [err_code]: [None] and [0] are false. *)
Definition code_truthy (err_code : option Z) : bool :=
  match err_code with
  | Some code => negb (code =? 0)
  | None => false
  end.

Definition evacuate_host (request : Request) (host : string)
    (target : option string) (on_shared_storage : bool) : M world bool :=
  c ← novaclient request;
  hypervisors ← library_call c (HypervisorsSearch host true)
                  (svc_hypervisors_search nova);
  let response : list string := [] in
  let err_code : option Z := None in
  '(response, err_code) ←
    for_fold hypervisors (λ acc hypervisor,
      let hyper := Build_Hypervisor hypervisor in
      servers ← Hypervisor_servers hyper;
      for_fold servers (λ '(response, err_code) server,
        try_except
          (c ← novaclient request;
           uuid ← lift_result (getitem server "uuid");
           _ ← library_call c (ServersEvacuate uuid target on_shared_storage)
                 (svc_servers_evacuate nova);
           mret (response, err_code))
          (λ err,
             match err with
             | ClientException code _ =>
                 Some (name ← lift_result (getitem server "name");
                       uuid ← lift_result (getitem server "uuid");
                       let msg := "Name: " +:+ name +:+ " ID: " +:+ uuid in
                       mret (response ++ [msg], Some code))
             | _ => None
             end)) acc) (response, err_code);
  if code_truthy err_code then
    let msg := "Failed to evacuate instances: " +:+ join ", " response in
    raise (ClientException (default 0 err_code) msg)
  else mret true.

(** *** Limits *)

Definition tenant_absolute_limits (request : Request) (reserved : bool)
    : M world (gmap string limit_val) :=
  c ← novaclient request;
  limits ← library_call c (LimitsGet reserved) (svc_limits_get nova);
  let limits_dict : gmap string limit_val := ∅ in
  for_fold limits (λ limits_dict limit,
    if limit_value limit <? 0 then
      if startswith (limit_name limit) "total" && endswith (limit_name limit) "Used"
      then mret (<[limit_name limit := LimInt 0]> limits_dict)
      else mret (<[limit_name limit := LimInf]> limits_dict)
    else mret (<[limit_name limit := LimInt (limit_value limit)]> limits_dict))
    limits_dict.

(** *** Aggregates *)

Definition aggregate_details_list (request : Request) : M world (list Aggregate) :=
  let result := [] in
  c ← novaclient request;
  aggregates ← library_call c AggregatesList (svc_aggregates_list nova);
  for_fold aggregates (λ result aggregate,
    details ← library_call c (AggregatesGetDetails (agg_id aggregate))
                (svc_aggregates_get_details nova);
    mret (result ++ [details])) result.


(** ** The vocabulary of the statements *)

(** The dictionary the caller's [search_opts] holds once [server_list] has
    prepared it: [paginate] popped, [limit] set when it was true, and
    [all_tenants] or [project_id] set. *)
Definition search_opts_after_call (request : Request) (all_tenants : bool)
    (m : gmap string pyval) : gmap string pyval :=
  let m1 :=
    match m !! "paginate" with
    | Some paginate =>
        if truthy paginate
        then <["limit" := PyInt (get_page_size request + 1)]> (delete "paginate" m)
        else delete "paginate" m
    | None => m
    end in
  if all_tenants then <["all_tenants" := PyBool true]> m1
  else <["project_id" := PyStr (tenant_id (user request))]> m1.

(** What [server_list] returns for the rows the library answers with. *)
Definition server_list_result (request : Request) (paginate : pyval)
    (rows : list ServerResource) : result (list Server * bool) :=
  let servers := map (λ s, Build_Server s request) rows in
  if truthy paginate && (get_page_size request <? Z.of_nat (length servers)) then
    match list_pop_last servers with
    | Ok servers' => Ok (servers', true)
    | Raise e => Raise e
    end
  else if truthy paginate &&
          (Z.of_nat (length servers) =? default 1000 (API_RESULT_LIMIT settings))
  then Ok (servers, true)
  else Ok (servers, false).

(** The library call [evacuate_host] makes for a server, and the entry of
    the error message for it. *)
Definition evacuate_call (target : option string) (on_shared_storage : bool)
    (server : gmap string string) : call :=
  ServersEvacuate (default "" (server !! "uuid")) target on_shared_storage.



Definition well_formed_server (server : gmap string string) : Prop :=
  is_Some (server !! "uuid") ∧ is_Some (server !! "name").


(** The body of the inner loop of [evacuate_host]. *)
Definition evacuate_body (request : Request) (target : option string)
    (on_shared_storage : bool)
    : list string * option Z → gmap string string → M world (list string * option Z) :=
  λ '(response, err_code) server,
    try_except
      (c ← novaclient request;
       uuid ← lift_result (getitem server "uuid");
       _ ← library_call c (ServersEvacuate uuid target on_shared_storage)
             (svc_servers_evacuate nova);
       mret (response, err_code))
      (λ err,
         match err with
         | ClientException code _ =>
             Some (name ← lift_result (getitem server "name");
                   uuid ← lift_result (getitem server "uuid");
                   let msg := "Name: " +:+ name +:+ " ID: " +:+ uuid in
                   mret (response ++ [msg], Some code))
         | _ => None
         end).

(** The library method behind a change of the security groups. *)
Definition answer_of (ev : call) : list call → result unit :=
  match ev with
  | ServersAddSecurityGroup _ _ => svc_add_security_group nova
  | ServersRemoveSecurityGroup _ _ => svc_remove_security_group nova
  | _ => λ _, Ok ()
  end.

(** The answer of the library to the [i]-th call of [plan], when the calls
    of [plan] are made one after the other from the history [t]. *)
Definition call_answer (t plan : list call) (i : nat) : result unit :=
  match plan !! i with
  | Some ev => answer_of ev (t ++ take (S i) plan)
  | None => Ok ()
  end.

(** One iteration of either loop: the call, then the decrement of
    [num_groups_to_modify]. *)
Definition modify_group (c : Client) (ev : call) : M (Z * world) unit :=
  _ ← in_world (library_call c ev (answer_of ev));
  num_groups_to_modify ← get_local;
  set_local (num_groups_to_modify - 1).

(** The groups [list_by_instance] returns for the body of the response. *)
Definition current_groups_of (body : option (gmap string (list SecurityGroupResource)))
    : list SecurityGroup :=
  if body_truthy body
  then map Build_SecurityGroup (default [] (default ∅ body !! "security_groups"))
  else [].

Definition security_groups_url (instance_id : string) : string :=
  "/servers/" +:+ instance_id +:+ "/os-security-groups".

(** The evacuations of [servers], made one after the other from the history
    [t], are tolerated: each server carries its keys and the library accepts
    its evacuation or refuses it with a [ClientException]. *)
Definition evacuations_tolerated (target : option string) (on_shared_storage : bool)
    (t : list call) (servers : list (gmap string string)) : Prop :=
  ∀ i server, servers !! i = Some server →
    well_formed_server server ∧
    ∀ e, svc_servers_evacuate nova
           (t ++ map (evacuate_call target on_shared_storage) (take (S i) servers))
         = Raise e →
         ∃ code message, e = ClientException code message.

(** The entry [tenant_absolute_limits] stores for a limit. *)
Definition corrected_limit (limit : AbsoluteLimit) : limit_val :=
  if limit_value limit <? 0
  then if startswith (limit_name limit) "total" && endswith (limit_name limit) "Used"
       then LimInt 0 else LimInf
  else LimInt (limit_value limit).

(** The cache of [novaclient] holds handles that were allocated, each context
    its own. *)
Definition cache_consistent (w : world) : Prop :=
  (∀ i c, novaclient_cache w !! i = Some c → (client_id c < next_obj w)%nat) ∧
  (∀ i j c c', novaclient_cache w !! i = Some c → novaclient_cache w !! j = Some c' →
     client_id c = client_id c' → i = j).

(** [FieldFactory.make_form_field], for the registry, the locators of the
    classes and the elements present under the source element. *)
Definition make_form_field (registry : gset string)
    (element_locator : string → option locator) (present : locator → bool)
    : outcome string :=
  first_present present element_locator (set_order registry).

(** A Python [set] is iterated in some order without repetition. *)
Hypothesis set_order_permutes : ∀ X : gset string, set_order X ≡ₚ elements X.

(** ** Running the monad *)

Lemma run_bind {S A B} (m : M S A) (k : A → M S B) (s : S) :
  (m ≫= k) s = match m s with
               | (Ok a, s') => k a s'
               | (Raise e, s') => (Raise e, s')
               end.
Proof. reflexivity. Qed.

Lemma run_bind_ok {S A B} (m : M S A) (k : A → M S B) (s s' : S) (a : A) :
  m s = (Ok a, s') → (m ≫= k) s = k a s'.
Proof. intros H. rewrite run_bind, H. reflexivity. Qed.

(** A loop whose body only computes is a left fold. *)
Lemma for_fold_pure {S A B} (f : B → A → B) (body : B → A → M S B) (l : list A) :
  (∀ acc x s, body acc x s = (Ok (f acc x), s)) →
  ∀ acc s, for_fold l body acc s = (Ok (foldl f acc l), s).
Proof.
  intros Hbody. induction l as [|x l IH]; intros acc s; simpl.
  - reflexivity.
  - rewrite run_bind, Hbody. apply IH.
Qed.

(** ** The memoized client handle *)

(** A call of [novaclient] always returns a handle; it leaves the trace and
    the dictionaries alone and afterwards the handle is in the cache. *)
Lemma novaclient_run request w :
  ∃ c w', novaclient request w = (Ok c, w') ∧
          trace w' = trace w ∧ dicts w' = dicts w ∧
          novaclient_cache w' !! req_id request = Some c ∧
          (∀ c0, novaclient_cache w !! req_id request = Some c0 → c = c0 ∧ w' = w).
Proof.
  unfold novaclient, memoized. rewrite run_bind. simpl.
  destruct (novaclient_cache w !! req_id request) as [c|] eqn:Hc.
  - exists c, w. split; [reflexivity|]. split; [reflexivity|].
    split; [reflexivity|]. split; [exact Hc|].
    intros c0 [= <-]. split; reflexivity.
  - eexists _, _. split; [reflexivity|]. simpl.
    split; [reflexivity|]. split; [reflexivity|].
    split; [apply lookup_insert_eq|]. intros c0 [=].
Qed.

Lemma novaclient_cached request w c :
  novaclient_cache w !! req_id request = Some c →
  novaclient request w = (Ok c, w).
Proof.
  intros Hc. unfold novaclient, memoized. rewrite run_bind. simpl.
  rewrite Hc. reflexivity.
Qed.

(** Entries of the cache are never replaced or dropped by [novaclient]. *)
Lemma novaclient_keeps_cache request w i c :
  novaclient_cache w !! i = Some c →
  novaclient_cache (novaclient request w).2 !! i = Some c.
Proof.
  intros Hi. unfold novaclient, memoized. rewrite run_bind. simpl.
  destruct (novaclient_cache w !! req_id request) as [c'|] eqn:Hc; simpl.
  - exact Hi.
  - rewrite lookup_insert_ne; [exact Hi|]. intros Heq. congruence.
Qed.

Lemma novaclient_calls_keep_cache (others : list Request) w i c :
  novaclient_cache w !! i = Some c →
  novaclient_cache (for_each others (λ r, _ ← novaclient r; mret tt) w).2 !! i = Some c.
Proof.
  revert w. induction others as [|r others IH]; intros w Hi; simpl.
  - exact Hi.
  - rewrite !run_bind.
    destruct (novaclient_run r w) as (c' & w' & Hrun & _).
    pose proof (novaclient_keeps_cache r w i c Hi) as Hkeep.
    rewrite Hrun in Hkeep |- *. simpl in *. apply IH, Hkeep.
Qed.

(** C5. Two calls of [novaclient] in the same request context return the
    identical handle object: the first call returns a handle [c] (with its
    object identity [client_id c]), and after any further calls of
    [novaclient], for this or for other contexts, a call for the same
    context returns the same [c] and changes nothing. *)
Theorem novaclient_same_handle (request : Request) (others : list Request) (w : world) :
  ∃ c w1,
    novaclient request w = (Ok c, w1) ∧
    let w2 := (for_each others (λ r, _ ← novaclient r; mret tt) w1).2 in
    novaclient request w2 = (Ok c, w2).
Proof.
  destruct (novaclient_run request w) as (c & w1 & Hrun & _ & _ & Hc & _).
  exists c, w1. split; [exact Hrun|]. simpl.
  apply novaclient_cached, novaclient_calls_keep_cache, Hc.
Qed.

(** ** Hypervisor.servers *)

Lemma Hypervisor_servers_run {S} (self : Hypervisor) (s : S) :
  Hypervisor_servers self s =
    (Ok (default [] (hypervisor_servers (hyp_apidict self))), s).
Proof.
  unfold Hypervisor_servers, try_except, lift_result, apidict_servers.
  destruct (hypervisor_servers (hyp_apidict self)); reflexivity.
Qed.

(** C10. The accessor [Hypervisor.servers] never raises: it returns the empty
    list when the wrapped object has no [servers] attribute and the value of
    the attribute otherwise, and it changes nothing. *)
Theorem Hypervisor_servers_total {S} (self : Hypervisor) (s : S) :
  Hypervisor_servers self s =
    (Ok match hypervisor_servers (hyp_apidict self) with
        | None => []
        | Some servers => servers
        end, s).
Proof.
  unfold Hypervisor_servers, try_except, lift_result, apidict_servers.
  destruct (hypervisor_servers (hyp_apidict self)); reflexivity.
Qed.

(** ** Quota and limit sign correction *)

(** What [tenant_absolute_limits] stores for one limit. *)
Lemma limits_fold_lookup (f : AbsoluteLimit → limit_val)
    (before after : list AbsoluteLimit) (limit : AbsoluteLimit)
    (d : gmap string limit_val) :
  limit_name limit ∉ map limit_name after →
  foldl (λ d l, <[limit_name l := f l]> d) d (before ++ limit :: after)
    !! limit_name limit = Some (f limit).
Proof.
  intros Hlast. rewrite foldl_app. simpl.
  generalize (foldl (λ d l, <[limit_name l := f l]> d) d before). intros d0.
  assert (Hstart : <[limit_name limit := f limit]> d0 !! limit_name limit = Some (f limit))
    by apply lookup_insert_eq.
  revert Hlast Hstart. generalize (<[limit_name limit := f limit]> d0).
  induction after as [|l after IH]; intros d1 Hlast Hstart; simpl.
  - exact Hstart.
  - simpl in Hlast. apply not_elem_of_cons in Hlast as [Hne Hlast].
    apply IH; [exact Hlast|]. rewrite lookup_insert_ne; auto.
Qed.

(** C2. For every absolute limit the remote service returns (the last one of
    its name, when a name is returned twice), [tenant_absolute_limits] maps a
    negative used counter (a name that starts with [total] and ends with
    [Used]) to zero, every other negative value to infinity, and passes every
    non-negative value through unchanged. *)
Theorem tenant_absolute_limits_sign_correction (request : Request) (reserved : bool)
    (w : world) (limits before after : list AbsoluteLimit) (limit : AbsoluteLimit) :
  svc_limits_get nova (trace w ++ [LimitsGet reserved]) = Ok limits →
  limits = before ++ limit :: after →
  limit_name limit ∉ map limit_name after →
  ∃ limits_dict w',
    tenant_absolute_limits request reserved w = (Ok limits_dict, w') ∧
    (limit_value limit < 0 →
     startswith (limit_name limit) "total" && endswith (limit_name limit) "Used" = true →
     limits_dict !! limit_name limit = Some (LimInt 0)) ∧
    (limit_value limit < 0 →
     startswith (limit_name limit) "total" && endswith (limit_name limit) "Used" = false →
     limits_dict !! limit_name limit = Some LimInf) ∧
    (0 ≤ limit_value limit →
     limits_dict !! limit_name limit = Some (LimInt (limit_value limit))).
Proof.
  intros Hsvc -> Hlast.
  destruct (novaclient_run request w) as (c & w1 & Hrun & Htr & _).
  unfold tenant_absolute_limits.
  rewrite (run_bind_ok _ _ _ _ _ Hrun).
  rewrite run_bind. unfold library_call at 1. rewrite Htr, Hsvc.
  set (f := λ l : AbsoluteLimit,
         if limit_value l <? 0
         then if startswith (limit_name l) "total" && endswith (limit_name l) "Used"
              then LimInt 0 else LimInf
         else LimInt (limit_value l)).
  rewrite (for_fold_pure (λ d l, <[limit_name l := f l]> d)).
  2:{ intros acc x s. unfold f.
      destruct (limit_value x <? 0);
        [destruct (startswith _ _ && endswith _ _)|]; reflexivity. }
  eexists _, _. split; [reflexivity|].
  rewrite (limits_fold_lookup f before after limit ∅ Hlast). unfold f.
  split; [|split].
  - intros Hneg Hused. apply Z.ltb_lt in Hneg. rewrite Hneg, Hused. reflexivity.
  - intros Hneg Hused. apply Z.ltb_lt in Hneg. rewrite Hneg, Hused. reflexivity.
  - intros Hpos. apply Z.ltb_ge in Hpos. rewrite Hpos. reflexivity.
Qed.

(** ** server_list *)

Lemma dict_contains_run d k w :
  dict_contains d k w = (Ok (bool_decide (is_Some (default ∅ (dicts w !! d) !! k))), w).
Proof. reflexivity. Qed.

Lemma dict_pop_run d k v w :
  default ∅ (dicts w !! d) !! k = Some v →
  dict_pop d k w =
    (Ok v, set_dicts (insert d (delete k (default ∅ (dicts w !! d)))) w).
Proof.
  intros Hk. unfold dict_pop. rewrite run_bind. simpl. rewrite Hk. reflexivity.
Qed.

Lemma dict_setitem_run d k v w :
  dict_setitem d k v w =
    (Ok (), set_dicts (insert d (<[k:=v]> (default ∅ (dicts w !! d)))) w).
Proof. reflexivity. Qed.

Lemma dict_read_run d w : dict_read d w = (Ok (default ∅ (dicts w !! d)), w).
Proof. reflexivity. Qed.

Lemma server_list_tail (request : Request) (c : Client) (d : nat) (paginate : pyval)
    (all_tenants : bool) (w : world) :
  let m := default ∅ (dicts w !! d) in
  let m' := if all_tenants then <["all_tenants" := PyBool true]> m
            else <["project_id" := PyStr (tenant_id (user request))]> m in
  let t := trace w ++ [ServersList true m'] in
  ∃ w',
    (_ ← (if all_tenants
          then dict_setitem d "all_tenants" (PyBool true)
          else dict_setitem d "project_id" (PyStr (tenant_id (user request))));
     opts ← dict_read d;
     rows ← library_call c (ServersList true opts) (svc_servers_list nova);
     let servers := map (λ s, Build_Server s request) rows in
     let has_more_data := false in
     if truthy paginate && (get_page_size request <? Z.of_nat (length servers)) then
       servers ← lift_result (list_pop_last servers);
       mret (servers, true)
     else if truthy paginate &&
             (Z.of_nat (length servers) =? default 1000 (API_RESULT_LIMIT settings)) then
       mret (servers, true)
     else mret (servers, has_more_data)) w =
    (match svc_servers_list nova t with
     | Ok rows => server_list_result request paginate rows
     | Raise e => Raise e
     end, w') ∧
    dicts w' = <[d := m']> (dicts w) ∧ trace w' = t.
Proof.
  intros m m' t.
  eexists. split.
  - rewrite run_bind.
    assert (Hset : (if all_tenants
                    then dict_setitem d "all_tenants" (PyBool true)
                    else dict_setitem d "project_id" (PyStr (tenant_id (user request)))) w
                   = (Ok (), set_dicts (insert d m') w)).
    { subst m'. destruct all_tenants; apply dict_setitem_run. }
    rewrite Hset. rewrite run_bind, dict_read_run. simpl dicts.
    rewrite lookup_insert_eq. simpl default.
    rewrite run_bind. unfold library_call. simpl trace. fold t.
    destruct (svc_servers_list nova t) as [rows|e]; [|reflexivity].
    unfold server_list_result. simpl.
    destruct (truthy paginate && (get_page_size request <? _)).
    + rewrite run_bind. unfold lift_result.
      destruct (list_pop_last _); reflexivity.
    + destruct (truthy paginate && _); reflexivity.
  - split; reflexivity.
Qed.

Lemma server_list_run (request : Request) (d : nat) (all_tenants : bool) (w : world) :
  let m := default ∅ (dicts w !! d) in
  let paginate := default (PyBool false) (m !! "paginate") in
  let m' := search_opts_after_call request all_tenants m in
  let t := trace w ++ [ServersList true m'] in
  ∃ w',
    server_list request (Some d) all_tenants w =
      (match svc_servers_list nova t with
       | Ok rows => server_list_result request paginate rows
       | Raise e => Raise e
       end, w') ∧
    dicts w' = <[d := m']> (dicts w) ∧ trace w' = t.
Proof.
  intros m paginate m' t.
  destruct (novaclient_run request w) as (c & w1 & Hrun & Htr & Hd & _).
  unfold server_list. rewrite (run_bind_ok _ _ _ _ _ Hrun).
  subst m paginate m' t. unfold search_opts_after_call.
  rewrite <- Htr, <- Hd. clear Hrun Htr Hd w.
  rewrite run_bind. rewrite run_bind. rewrite dict_contains_run.
  destruct (default ∅ (dicts w1 !! d) !! "paginate") as [p|] eqn:Hp.
  - rewrite bool_decide_true by eauto.
    rewrite run_bind, (dict_pop_run _ _ _ _ Hp).
    destruct (truthy p) eqn:Htp.
    + rewrite !run_bind, dict_setitem_run. simpl default at 1.
      simpl dicts. rewrite lookup_insert_eq. simpl default.
      match goal with
      | |- context [mret (d, p) ?wx] =>
          destruct (server_list_tail request c d p all_tenants wx)
            as (w' & Heq & Hdicts & Htrace)
      end.
      exists w'. simpl in Heq, Hdicts, Htrace. rewrite lookup_insert_eq in *.
      simpl in Heq, Hdicts, Htrace.
      split; [exact Heq|]. split; [|exact Htrace].
      rewrite Hdicts, !insert_insert_eq. reflexivity.
    + rewrite !run_bind. simpl.
      match goal with
      | |- context [set_dicts ?f w1] =>
          destruct (server_list_tail request c d p all_tenants (set_dicts f w1))
            as (w' & Heq & Hdicts & Htrace)
      end.
      exists w'. simpl in Heq, Hdicts, Htrace. rewrite lookup_insert_eq in *.
      simpl in Heq, Hdicts, Htrace.
      split; [exact Heq|]. split; [|exact Htrace].
      rewrite Hdicts, !insert_insert_eq. reflexivity.
  - rewrite bool_decide_false by (intros [? [=]]).
    destruct (server_list_tail request c d (PyBool false) all_tenants w1)
      as (w' & Heq & Hdicts & Htrace).
    exists w'. split; [exact Heq|]. split; [exact Hdicts|exact Htrace].
Qed.


Lemma list_pop_last_take {A} (l : list A) (n : nat) :
  length l = S n → list_pop_last l = Ok (take n l).
Proof.
  intros Hlen. destruct l as [|x l]; [discriminate|].
  unfold list_pop_last. rewrite removelast_firstn_len, Hlen. reflexivity.
Qed.

(** C3, as amended. For a paginated [server_list] call with page size [N]:
    if the library returns [N+1] rows, the result is the first [N] servers
    with the more-data flag true; if it returns at most [N] rows, the result
    is all the servers, and the flag is false unless the number of rows is
    the configured [API_RESULT_LIMIT] (1000 when not set), where it is true. *)
Theorem server_list_pagination (request : Request) (d : nat) (all_tenants : bool)
    (w : world) (N : nat) (paginate : pyval) (rows : list ServerResource) :
  get_page_size request = Z.of_nat N →
  default ∅ (dicts w !! d) !! "paginate" = Some paginate →
  truthy paginate = true →
  svc_servers_list nova
    (trace w ++ [ServersList true
       (search_opts_after_call request all_tenants (default ∅ (dicts w !! d)))])
    = Ok rows →
  let servers := map (λ s, Build_Server s request) rows in
  (length rows = S N →
   (server_list request (Some d) all_tenants w).1 = Ok (take N servers, true)) ∧
  ((length rows ≤ N)%nat →
   (server_list request (Some d) all_tenants w).1 =
     Ok (servers,
         bool_decide (Z.of_nat (length rows) = default 1000 (API_RESULT_LIMIT settings)))).
Proof.
  intros Hsize Hp Htruthy Hsvc servers.
  destruct (server_list_run request d all_tenants w) as (w' & Hrun & _).
  rewrite Hrun, Hsvc, Hp. simpl. clear Hrun.
  unfold server_list_result. rewrite Htruthy, Hsize, length_map. simpl.
  split.
  - intros Hlen.
    assert (Hlt : (Z.of_nat N <? Z.of_nat (length rows)) = true)
      by (apply Z.ltb_lt; lia).
    rewrite Hlt, (list_pop_last_take _ N) by (rewrite length_map; exact Hlen).
    reflexivity.
  - intros Hlen.
    assert (Hlt : (Z.of_nat N <? Z.of_nat (length rows)) = false)
      by (apply Z.ltb_ge; lia).
    rewrite Hlt. fold servers.
    destruct (Z.eqb_spec (Z.of_nat (length rows)) (default 1000 (API_RESULT_LIMIT settings))).
    + rewrite bool_decide_true by assumption. reflexivity.
    + rewrite bool_decide_false by assumption. reflexivity.
Qed.

(** C6, as amended. When a paginated [server_list] call gets exactly as many
    rows as the configured [API_RESULT_LIMIT], the more-data flag is true;
    the last row is trimmed only when the number of rows also exceeds the
    page size, and otherwise every row is returned. *)
Theorem server_list_at_result_limit (request : Request) (d : nat) (all_tenants : bool)
    (w : world) (N : nat) (paginate : pyval) (rows : list ServerResource) :
  get_page_size request = Z.of_nat N →
  default ∅ (dicts w !! d) !! "paginate" = Some paginate →
  truthy paginate = true →
  svc_servers_list nova
    (trace w ++ [ServersList true
       (search_opts_after_call request all_tenants (default ∅ (dicts w !! d)))])
    = Ok rows →
  Z.of_nat (length rows) = default 1000 (API_RESULT_LIMIT settings) →
  let servers := map (λ s, Build_Server s request) rows in
  (server_list request (Some d) all_tenants w).1 =
    Ok (if (N <? length rows)%nat then take (length rows - 1) servers else servers, true).
Proof.
  intros Hsize Hp Htruthy Hsvc Hcap servers.
  destruct (server_list_run request d all_tenants w) as (w' & Hrun & _).
  rewrite Hrun, Hsvc, Hp. simpl. clear Hrun.
  unfold server_list_result. rewrite Htruthy, Hsize, length_map. simpl.
  destruct (Nat.ltb_spec N (length rows)) as [Hlt|Hge].
  - assert (Hlt' : (Z.of_nat N <? Z.of_nat (length rows)) = true)
      by (apply Z.ltb_lt; lia).
    rewrite Hlt', (list_pop_last_take _ (length rows - 1))
      by (rewrite length_map; lia).
    reflexivity.
  - assert (Hlt' : (Z.of_nat N <? Z.of_nat (length rows)) = false)
      by (apply Z.ltb_ge; lia).
    rewrite Hlt'. apply Z.eqb_eq in Hcap. rewrite Hcap. reflexivity.
Qed.

(** C9. [server_list] mutates the dictionary its caller passes as
    [search_opts]: after the call, whether or not the library raised, the
    caller's dictionary has no [paginate] key, holds [limit] (the page size
    plus one) when [paginate] was true, and holds [all_tenants] or
    [project_id]; when it had a [paginate] key it differs from what the
    caller passed. *)
Theorem server_list_mutates_search_opts (request : Request) (d : nat)
    (all_tenants : bool) (w : world) (m : gmap string pyval) :
  dicts w !! d = Some m →
  ∃ m', dicts (server_list request (Some d) all_tenants w).2 !! d = Some m' ∧
        m' = search_opts_after_call request all_tenants m ∧
        m' !! "paginate" = None ∧
        (∀ paginate, m !! "paginate" = Some paginate → truthy paginate = true →
           m' !! "limit" = Some (PyInt (get_page_size request + 1))) ∧
        (all_tenants = true → m' !! "all_tenants" = Some (PyBool true)) ∧
        (all_tenants = false →
           m' !! "project_id" = Some (PyStr (tenant_id (user request)))) ∧
        (is_Some (m !! "paginate") → m' ≠ m).
Proof.
  intros Hd.
  destruct (server_list_run request d all_tenants w) as (w' & Hrun & Hdicts & _).
  rewrite Hrun, Hd in *. simpl in *. clear Hrun.
  exists (search_opts_after_call request all_tenants m).
  split; [rewrite Hdicts; apply lookup_insert_eq|]. split; [reflexivity|].
  assert (Hnone : search_opts_after_call request all_tenants m !! "paginate" = None).
  { unfold search_opts_after_call.
    destruct (m !! "paginate") as [p|] eqn:Hp; [destruct (truthy p)|];
      destruct all_tenants;
      rewrite ?lookup_insert_ne by discriminate;
      rewrite ?lookup_delete_eq; auto. }
  split; [exact Hnone|].
  split; [|split; [|split]].
  - intros p Hp Htruthy. unfold search_opts_after_call. rewrite Hp, Htruthy.
    destruct all_tenants; rewrite lookup_insert_ne by discriminate;
      apply lookup_insert_eq.
  - intros ->. unfold search_opts_after_call. apply lookup_insert_eq.
  - intros ->. unfold search_opts_after_call. apply lookup_insert_eq.
  - intros [p Hp] Heq. rewrite Heq in Hnone. congruence.
Qed.


(** ** Delegations to the client library *)

Lemma library_call_run {A} (c : Client) (ev : call) (answer : list call → result A) w :
  library_call c ev answer w = (answer (trace w ++ [ev]), set_trace (trace w ++ [ev]) w).
Proof. reflexivity. Qed.


Lemma flavor_extra_set_run (request : Request) (flavor_id : string)
    (metadata : option (gmap string string)) (w : world) :
  metadata_truthy metadata = true →
  let t1 := trace w ++ [FlavorsGet flavor_id] in
  let out := flavor_extra_set request flavor_id metadata w in
  match svc_flavors_get nova t1 with
  | Raise e => out.1 = Raise e ∧ trace out.2 = t1
  | Ok flavor =>
      let t2 := t1 ++ [FlavorSetKeys (fl_id flavor) (default ∅ metadata)] in
      trace out.2 = t2 ∧
      out.1 = match svc_flavor_set_keys nova t2 with
              | Ok r => Ok (Some r)
              | Raise e => Raise e
              end
  end.
Proof.
  intros Hmeta.
  destruct (novaclient_run request w) as (c & w1 & Hrun & Htr & _).
  unfold flavor_extra_set. simpl.
  rewrite (run_bind_ok _ _ _ _ _ Hrun), run_bind, library_call_run, Htr.
  destruct (svc_flavors_get nova _) as [flavor|e]; [|split; reflexivity].
  rewrite Hmeta. simpl. rewrite run_bind, library_call_run. simpl.
  destruct (svc_flavor_set_keys nova _); split; reflexivity.
Qed.




(** ** evacuate_host *)

Lemma for_fold_app {S A B} (body : B → A → M S B) (l1 l2 : list A) (acc : B) (s : S) :
  for_fold (l1 ++ l2) body acc s =
    (acc' ← for_fold l1 body acc; for_fold l2 body acc') s.
Proof.
  revert acc s. induction l1 as [|x l1 IH]; intros acc s; simpl.
  - reflexivity.
  - rewrite !run_bind. destruct (body acc x s) as [[acc'|e] s']; [|reflexivity].
    rewrite IH. reflexivity.
Qed.

(** The nested loops over hypervisors and their servers visit the servers of
    all the hypervisors in order. *)
Lemma for_fold_hypervisors {S B} (body : B → gmap string string → M S B)
    (hypervisors : list HypervisorResource) (acc : B) (s : S) :
  for_fold hypervisors (λ acc hypervisor,
      let hyper := Build_Hypervisor hypervisor in
      servers ← Hypervisor_servers hyper;
      for_fold servers body acc) acc s =
  for_fold (concat (map (λ h, default [] (hypervisor_servers h)) hypervisors)) body acc s.
Proof.
  revert acc s. induction hypervisors as [|h hypervisors IH]; intros acc s; simpl.
  - reflexivity.
  - rewrite for_fold_app, !run_bind, Hypervisor_servers_run. simpl.
    destruct (for_fold (default [] (hypervisor_servers h)) body acc s) as [[acc'|e] s'];
      [apply IH|reflexivity].
Qed.








(** ** Reconciling the security groups of an instance *)

Lemma for_each_app {S A} (body : A → M S unit) (l1 l2 : list A) (s : S) :
  for_each (l1 ++ l2) body s = (_ ← for_each l1 body; for_each l2 body) s.
Proof.
  revert s. induction l1 as [|x l1 IH]; intros s; simpl.
  - reflexivity.
  - rewrite !run_bind. destruct (body x s) as [[[]|e] s']; [apply IH|reflexivity].
Qed.

Lemma for_each_map {S A B} (f : A → B) (body : B → M S unit) (l : list A) (s : S) :
  for_each (map f l) body s = for_each l (λ x, body (f x)) s.
Proof.
  revert s. induction l as [|x l IH]; intros s; simpl.
  - reflexivity.
  - rewrite !run_bind. destruct (body (f x) s) as [[[]|e] s']; [apply IH|reflexivity].
Qed.

Lemma call_answer_cons (t : list call) (ev : call) (plan : list call) (i : nat) :
  call_answer t (ev :: plan) (S i) = call_answer (t ++ [ev]) plan i.
Proof.
  unfold call_answer. simpl. rewrite <- app_assoc. reflexivity.
Qed.

Lemma modify_group_run (c : Client) (ev : call) (n : Z) (w : world) :
  modify_group c ev (n, w) =
    match answer_of ev (trace w ++ [ev]) with
    | Ok _ => (Ok (), (n - 1, set_trace (trace w ++ [ev]) w))
    | Raise e => (Raise e, (n, set_trace (trace w ++ [ev]) w))
    end.
Proof.
  unfold modify_group. rewrite run_bind. unfold in_world, library_call. simpl.
  destruct (answer_of ev _); reflexivity.
Qed.

(** The calls of [plan] are made in order up to the first one that raises;
    [num_groups_to_modify] has been decremented once per call that
    succeeded. *)
Lemma modify_groups_run (c : Client) (plan : list call) (n : Z) (w : world) :
  let out := for_each plan (modify_group c) (n, w) in
  ∃ done : nat,
    (∀ i, (i < done)%nat → call_answer (trace w) plan i = Ok ()) ∧
    out.2.1 = n - Z.of_nat done ∧
    match out.1 with
    | Ok _ => done = length plan ∧ trace out.2.2 = trace w ++ plan
    | Raise e =>
        (done < length plan)%nat ∧
        call_answer (trace w) plan done = Raise e ∧
        trace out.2.2 = trace w ++ take (S done) plan
    end.
Proof.
  revert n w. induction plan as [|ev plan IH]; intros n w; simpl.
  - exists 0%nat. split; [intros i Hi; lia|]. split; [lia|].
    rewrite app_nil_r. split; reflexivity.
  - rewrite run_bind, modify_group_run.
    destruct (answer_of ev (trace w ++ [ev])) as [[]|e] eqn:Hsvc.
    + destruct (IH (n - 1) (set_trace (trace w ++ [ev]) w))
        as (done & Hdone & Hlocal & Hout).
      exists (S done). split; [|split].
      * intros [|i] Hi; [exact Hsvc|].
        rewrite call_answer_cons. apply Hdone. lia.
      * rewrite Hlocal. lia.
      * destruct (for_each plan _ _) as [[[]|e] [n' w']]; simpl in *.
        -- destruct Hout as [-> ->]. split; [reflexivity|].
           rewrite <- app_assoc. reflexivity.
        -- destruct Hout as (Hlt & Hraise & ->). split; [lia|]. split.
           ++ rewrite call_answer_cons. exact Hraise.
           ++ rewrite <- app_assoc. reflexivity.
    + exists 0%nat. simpl. split; [intros i Hi; lia|]. split; [lia|].
      split; [lia|]. split; [exact Hsvc|]. rewrite take_0. reflexivity.
Qed.


(** The two loops of [update_instance_security_group] make the calls of one
    plan: the additions, then the removals. *)
Lemma add_then_remove_loops (c : Client) (instance_id : string)
    (adds removes : list string) (s : Z * world) :
  (_ ← for_each adds (λ group,
         _ ← in_world (library_call c (ServersAddSecurityGroup instance_id group)
                (svc_add_security_group nova));
         num_groups_to_modify ← get_local;
         set_local (num_groups_to_modify - 1));
   for_each removes (λ group,
         _ ← in_world (library_call c (ServersRemoveSecurityGroup instance_id group)
                (svc_remove_security_group nova));
         num_groups_to_modify ← get_local;
         set_local (num_groups_to_modify - 1))) s =
  for_each (map (ServersAddSecurityGroup instance_id) adds ++
            map (ServersRemoveSecurityGroup instance_id) removes)
           (modify_group c) s.
Proof.
  rewrite for_each_app, !run_bind, for_each_map.
  destruct (for_each adds _ s) as [[[]|e] s']; [|reflexivity].
  rewrite for_each_map. reflexivity.
Qed.

(** [update_instance_security_group], once both lists have been fetched, is
    the loop over the plan followed by the handler. *)
Lemma update_instance_security_group_run (self : SecurityGroupManager)
    (instance_id : string) (new_security_group_ids : list string) (w : world)
    (all_groups : list SecurityGroupResource)
    (body : option (gmap string (list SecurityGroupResource))) :
  let t := trace w ++ [SecurityGroupsList; ClientGet (security_groups_url instance_id)] in
  let wanted_groups : gset string :=
    list_to_set (map (λ sg, sg_name (sg_apiresource sg))
      (filter (λ sg, sg_id (sg_apiresource sg) ∈ new_security_group_ids)
         (map Build_SecurityGroup all_groups))) in
  let current_group_names : gset string :=
    list_to_set (map (λ sg, sg_name (sg_apiresource sg)) (current_groups_of body)) in
  let groups_to_add := wanted_groups ∖ current_group_names in
  let groups_to_remove := current_group_names ∖ wanted_groups in
  let plan := map (ServersAddSecurityGroup instance_id) (set_order groups_to_add) ++
              map (ServersRemoveSecurityGroup instance_id) (set_order groups_to_remove) in
  let loop := for_each plan (modify_group (sgm_client self))
                (Z.of_nat (size (groups_to_add ∪ groups_to_remove)), set_trace t w) in
  svc_security_groups_list nova (trace w ++ [SecurityGroupsList]) = Ok all_groups →
  svc_client_get nova t = Ok body →
  update_instance_security_group self instance_id new_security_group_ids w =
    (match loop.1 with
     | Ok _ => Ok true
     | Raise (ClientException code _) =>
         Raise (ClientException code (sanitized_message loop.2.1))
     | Raise e => Raise e
     end, loop.2.2).
Proof.
  intros t wanted_groups current_group_names groups_to_add groups_to_remove plan loop
    Hlist Hget.
  unfold update_instance_security_group.
  rewrite run_bind. unfold try_except at 1. unfold SecurityGroupManager_list.
  rewrite run_bind, library_call_run, Hlist. simpl.
  rewrite run_bind. unfold try_except at 1. unfold list_by_instance.
  rewrite run_bind, library_call_run. simpl trace. rewrite <- app_assoc. simpl app.
  fold (security_groups_url instance_id). fold t. rewrite Hget.
  assert (Hcur : ((if body_truthy body
                   then mret (map Build_SecurityGroup
                                (default [] (default ∅ body !! "security_groups")))
                   else mret []) : M world (list SecurityGroup))
                    (set_trace t (set_trace (trace w ++ [SecurityGroupsList]) w))
                 = (Ok (current_groups_of body), set_trace t w)).
  { unfold current_groups_of. destruct (body_truthy body); reflexivity. }
  rewrite Hcur. clear Hcur.
  fold wanted_groups current_group_names groups_to_add groups_to_remove.
  rewrite run_bind. unfold with_locals, try_except.
  rewrite add_then_remove_loops. fold plan. fold loop.
  destruct loop as [[[]|e] [n w']]; simpl; [reflexivity|].
  destruct e; reflexivity.
Qed.


Lemma set_order_elem_of (X : gset string) (g : string) : g ∈ set_order X ↔ g ∈ X.
Proof. rewrite (set_order_permutes X). apply elem_of_elements. Qed.

Lemma set_order_NoDup (X : gset string) : NoDup (set_order X).
Proof. rewrite (set_order_permutes X). apply NoDup_elements. Qed.

Lemma set_order_length (X : gset string) : length (set_order X) = size X.
Proof. rewrite (set_order_permutes X). reflexivity. Qed.

Lemma set_order_singleton (g : string) : set_order {[g]} = [g].
Proof.
  apply Permutation_singleton_r. rewrite (set_order_permutes {[g]}).
  rewrite elements_singleton. reflexivity.
Qed.

(** [num_groups_to_modify] starts as the length of the plan. *)
Lemma plan_length (instance_id : string) (wanted current : gset string) :
  size ((wanted ∖ current) ∪ (current ∖ wanted)) =
  length (map (ServersAddSecurityGroup instance_id) (set_order (wanted ∖ current)) ++
          map (ServersRemoveSecurityGroup instance_id) (set_order (current ∖ wanted))).
Proof.
  rewrite length_app, !length_map, !set_order_length.
  apply size_union. intros g. rewrite !elem_of_difference. tauto.
Qed.

Lemma pair_difference_left (A B C : string) :
  A ≠ B → A ≠ C → ({[A; B]} ∖ {[B; C]} : gset string) = {[A]}.
Proof.
  intros HAB HAC. apply set_eq. intros g.
  rewrite elem_of_difference, !elem_of_union, !elem_of_singleton.
  split; [intros [[->| ->] Hn]; [reflexivity|tauto]|intros ->].
  split; [left; reflexivity|intros [?|?]; congruence].
Qed.

Lemma pair_difference_right (A B C : string) :
  A ≠ C → B ≠ C → ({[B; C]} ∖ {[A; B]} : gset string) = {[C]}.
Proof.
  intros HAC HBC. apply set_eq. intros g.
  rewrite elem_of_difference, !elem_of_union, !elem_of_singleton.
  split; [intros [[->| ->] Hn]; [tauto|reflexivity]|intros ->].
  split; [right; reflexivity|intros [?|?]; congruence].
Qed.

(** C1. [update_instance_security_group] adds the wanted group names that
    the instance does not have and removes the current names that are not
    wanted, each once, whatever the order in which the sets are iterated; the
    library calls it makes are an initial part of the plan that lists all the
    additions before all the removals, and the whole plan when no call
    raises.  For wanted names {A,B} and current names {B,C}, exactly A is
    added and exactly C is removed. *)
Theorem update_instance_security_group_reconciles (self : SecurityGroupManager)
    (instance_id : string) (new_security_group_ids : list string) (w : world)
    (all_groups : list SecurityGroupResource)
    (body : option (gmap string (list SecurityGroupResource))) :
  let t := trace w ++ [SecurityGroupsList; ClientGet (security_groups_url instance_id)] in
  let wanted_groups : gset string :=
    list_to_set (map (λ sg, sg_name (sg_apiresource sg))
      (filter (λ sg, sg_id (sg_apiresource sg) ∈ new_security_group_ids)
         (map Build_SecurityGroup all_groups))) in
  let current_group_names : gset string :=
    list_to_set (map (λ sg, sg_name (sg_apiresource sg)) (current_groups_of body)) in
  let adds := set_order (wanted_groups ∖ current_group_names) in
  let removes := set_order (current_group_names ∖ wanted_groups) in
  let plan := map (ServersAddSecurityGroup instance_id) adds ++
              map (ServersRemoveSecurityGroup instance_id) removes in
  let out := update_instance_security_group self instance_id new_security_group_ids w in
  svc_security_groups_list nova (trace w ++ [SecurityGroupsList]) = Ok all_groups →
  svc_client_get nova t = Ok body →
  (∀ g, g ∈ adds ↔ g ∈ wanted_groups ∧ g ∉ current_group_names) ∧
  NoDup adds ∧
  (∀ g, g ∈ removes ↔ g ∈ current_group_names ∧ g ∉ wanted_groups) ∧
  NoDup removes ∧
  (∃ k, (k ≤ length plan)%nat ∧ trace out.2 = t ++ take k plan) ∧
  (out.1 = Ok true → trace out.2 = t ++ plan) ∧
  ((∀ i, (i < length plan)%nat → call_answer t plan i = Ok ()) →
   out.1 = Ok true ∧ trace out.2 = t ++ plan) ∧
  (∀ A B C : string, A ≠ B → A ≠ C → B ≠ C →
     wanted_groups = {[A; B]} → current_group_names = {[B; C]} →
     adds = [A] ∧ removes = [C]).
Proof.
  intros t wanted_groups current_group_names adds removes plan out Hlist Hget.
  split; [|split; [|split; [|split]]].
  - intros g. unfold adds. rewrite set_order_elem_of. apply elem_of_difference.
  - apply set_order_NoDup.
  - intros g. unfold removes. rewrite set_order_elem_of. apply elem_of_difference.
  - apply set_order_NoDup.
  - subst out.
    rewrite (update_instance_security_group_run self instance_id
               new_security_group_ids w all_groups body Hlist Hget).
    fold t wanted_groups current_group_names adds removes plan.
    destruct (modify_groups_run (sgm_client self) plan
                (Z.of_nat (size (wanted_groups ∖ current_group_names
                                 ∪ current_group_names ∖ wanted_groups)))
                (set_trace t w)) as (done & Hdone & Hlocal & Hout).
    simpl in Hdone, Hout.
    destruct (for_each plan _ _) as [[[]|e] [n w']]; simpl in *.
    + destruct Hout as [-> Htrace].
      split; [exists (length plan); split; [lia|]; rewrite firstn_all; exact Htrace|].
      split; [intros _; exact Htrace|].
      split; [intros _; split; [reflexivity|exact Htrace]|].
      intros A B C HAB HAC HBC Hw Hc. unfold adds, removes. rewrite Hw, Hc.
      rewrite (pair_difference_left A B C HAB HAC),
        (pair_difference_right A B C HAC HBC), !set_order_singleton.
      split; reflexivity.
    + destruct Hout as (Hlt & Hraise & Htrace).
      split; [exists (S done); split; [lia|]; destruct e; exact Htrace|].
      split; [intros Hok; destruct e; discriminate|].
      split; [intros Hall; rewrite Hall in Hraise by exact Hlt; discriminate|].
      intros A B C HAB HAC HBC Hw Hc. unfold adds, removes. rewrite Hw, Hc.
      rewrite (pair_difference_left A B C HAB HAC),
        (pair_difference_right A B C HAC HBC), !set_order_singleton.
      split; reflexivity.
Qed.

(** C4. When a call of [add_security_group] or [remove_security_group]
    fails during the reconciliation with a [ClientException],
    [update_instance_security_group] raises a [ClientException] with the code
    of that error and the message [sanitized_message] builds from the number
    of changes not yet made (the failed one included): the message is
    computed from that count alone, not from a group name, the instance or
    the tenant. *)
Theorem update_instance_security_group_sanitizes (self : SecurityGroupManager)
    (instance_id : string) (new_security_group_ids : list string) (w : world)
    (all_groups : list SecurityGroupResource)
    (body : option (gmap string (list SecurityGroupResource)))
    (failing : nat) (code : Z) (message : string) :
  let t := trace w ++ [SecurityGroupsList; ClientGet (security_groups_url instance_id)] in
  let wanted_groups : gset string :=
    list_to_set (map (λ sg, sg_name (sg_apiresource sg))
      (filter (λ sg, sg_id (sg_apiresource sg) ∈ new_security_group_ids)
         (map Build_SecurityGroup all_groups))) in
  let current_group_names : gset string :=
    list_to_set (map (λ sg, sg_name (sg_apiresource sg)) (current_groups_of body)) in
  let adds := set_order (wanted_groups ∖ current_group_names) in
  let removes := set_order (current_group_names ∖ wanted_groups) in
  let plan := map (ServersAddSecurityGroup instance_id) adds ++
              map (ServersRemoveSecurityGroup instance_id) removes in
  let out := update_instance_security_group self instance_id new_security_group_ids w in
  svc_security_groups_list nova (trace w ++ [SecurityGroupsList]) = Ok all_groups →
  svc_client_get nova t = Ok body →
  (failing < length plan)%nat →
  (∀ i, (i < failing)%nat → call_answer t plan i = Ok ()) →
  call_answer t plan failing = Raise (ClientException code message) →
  out.1 = Raise (ClientException code
                   (sanitized_message (Z.of_nat (length plan - failing)))) ∧
  sanitized_message (Z.of_nat (length plan - failing)) =
    "Failed to modify " +:+ fmt_d (Z.of_nat (length plan - failing)) +:+
    " instance security groups".
Proof.
  intros t wanted_groups current_group_names adds removes plan out Hlist Hget
    Hfailing Hbefore Hraise.
  split; [|reflexivity].
  subst out.
  rewrite (update_instance_security_group_run self instance_id
             new_security_group_ids w all_groups body Hlist Hget).
  fold t wanted_groups current_group_names adds removes plan.
  destruct (modify_groups_run (sgm_client self) plan
              (Z.of_nat (size (wanted_groups ∖ current_group_names
                               ∪ current_group_names ∖ wanted_groups)))
              (set_trace t w)) as (done & Hdone & Hlocal & Hout).
  simpl in Hdone, Hout.
  destruct (for_each plan _ _) as [[[]|e] [n w']]; simpl in *.
  - destruct Hout as [-> _]. rewrite Hdone in Hraise by exact Hfailing. discriminate.
  - destruct Hout as (Hlt & Hraise' & _).
    assert (done = failing) as ->.
    { destruct (Nat.lt_trichotomy done failing) as [Hc|[Hc|Hc]]; [|exact Hc|].
      - rewrite Hbefore in Hraise' by exact Hc. discriminate.
      - rewrite Hdone in Hraise by exact Hc. discriminate. }
    rewrite Hraise in Hraise'. injection Hraise' as <-.
    rewrite Hlocal. unfold plan, adds, removes. rewrite <- plan_length.
    f_equal. f_equal. f_equal.
    fold adds removes plan.
    assert (Hsize : size (wanted_groups ∖ current_group_names
                          ∪ current_group_names ∖ wanted_groups) = length plan)
      by apply plan_length.
    rewrite Hsize in *. lia.
Qed.

(** ** More on the reconciliation of security groups *)

(** X1. When fetching the list of all security groups fails, with whatever
    exception, [update_instance_security_group] raises the builtin
    [Exception] with a fixed message, after that single library call. *)
Theorem update_instance_security_group_list_failure (self : SecurityGroupManager)
    (instance_id : string) (new_security_group_ids : list string) (w : world) (e : exn) :
  svc_security_groups_list nova (trace w ++ [SecurityGroupsList]) = Raise e →
  update_instance_security_group self instance_id new_security_group_ids w =
    (Raise (PyException "Couldn't get security group list."),
     set_trace (trace w ++ [SecurityGroupsList]) w).
Proof.
  intros Hlist. unfold update_instance_security_group.
  rewrite run_bind. unfold try_except at 1. unfold SecurityGroupManager_list.
  rewrite run_bind, library_call_run, Hlist. reflexivity.
Qed.

Lemma update_instance_security_group_fetch_failure (self : SecurityGroupManager)
    (instance_id : string) (new_security_group_ids : list string) (w : world)
    (all_groups : list SecurityGroupResource) (e : exn) :
  let t := trace w ++ [SecurityGroupsList; ClientGet (security_groups_url instance_id)] in
  svc_security_groups_list nova (trace w ++ [SecurityGroupsList]) = Ok all_groups →
  svc_client_get nova t = Raise e →
  update_instance_security_group self instance_id new_security_group_ids w =
    (Raise (PyException
       ("Couldn't get current security group list for instance " +:+ instance_id +:+ ".")),
     set_trace t w).
Proof.
  intros t Hlist Hget. unfold update_instance_security_group.
  rewrite run_bind. unfold try_except at 1. unfold SecurityGroupManager_list.
  rewrite run_bind, library_call_run, Hlist. simpl.
  rewrite run_bind. unfold try_except at 1. unfold list_by_instance.
  rewrite run_bind, library_call_run. simpl trace. rewrite <- app_assoc. simpl app.
  fold (security_groups_url instance_id). fold t. rewrite Hget. reflexivity.
Qed.

(** X2. When fetching the groups of the instance fails, with whatever
    exception, [update_instance_security_group] raises the builtin
    [Exception] whose message names the instance, and no group is added or
    removed. *)
Theorem update_instance_security_group_current_failure (self : SecurityGroupManager)
    (instance_id : string) (new_security_group_ids : list string) (w : world)
    (all_groups : list SecurityGroupResource) (e : exn) :
  let t := trace w ++ [SecurityGroupsList; ClientGet (security_groups_url instance_id)] in
  svc_security_groups_list nova (trace w ++ [SecurityGroupsList]) = Ok all_groups →
  svc_client_get nova t = Raise e →
  update_instance_security_group self instance_id new_security_group_ids w =
    (Raise (PyException
       ("Couldn't get current security group list for instance " +:+ instance_id +:+ ".")),
     set_trace t w).
Proof.
  intros t Hlist Hget.
  exact (update_instance_security_group_fetch_failure self instance_id
           new_security_group_ids w all_groups e Hlist Hget).
Qed.

(** The outcome of [update_instance_security_group] when a call of the plan
    fails. *)
Lemma update_instance_security_group_first_failure (self : SecurityGroupManager)
    (instance_id : string) (new_security_group_ids : list string) (w : world)
    (all_groups : list SecurityGroupResource)
    (body : option (gmap string (list SecurityGroupResource)))
    (failing : nat) (e : exn) :
  let t := trace w ++ [SecurityGroupsList; ClientGet (security_groups_url instance_id)] in
  let wanted_groups : gset string :=
    list_to_set (map (λ sg, sg_name (sg_apiresource sg))
      (filter (λ sg, sg_id (sg_apiresource sg) ∈ new_security_group_ids)
         (map Build_SecurityGroup all_groups))) in
  let current_group_names : gset string :=
    list_to_set (map (λ sg, sg_name (sg_apiresource sg)) (current_groups_of body)) in
  let plan := map (ServersAddSecurityGroup instance_id)
                (set_order (wanted_groups ∖ current_group_names)) ++
              map (ServersRemoveSecurityGroup instance_id)
                (set_order (current_group_names ∖ wanted_groups)) in
  let out := update_instance_security_group self instance_id new_security_group_ids w in
  svc_security_groups_list nova (trace w ++ [SecurityGroupsList]) = Ok all_groups →
  svc_client_get nova t = Ok body →
  (failing < length plan)%nat →
  (∀ i, (i < failing)%nat → call_answer t plan i = Ok ()) →
  call_answer t plan failing = Raise e →
  trace out.2 = t ++ take (S failing) plan ∧
  out.1 = match e with
          | ClientException code _ =>
              Raise (ClientException code
                       (sanitized_message (Z.of_nat (length plan - failing))))
          | _ => Raise e
          end.
Proof.
  intros t wanted_groups current_group_names plan out Hlist Hget Hfailing Hbefore Hraise.
  subst out.
  rewrite (update_instance_security_group_run self instance_id
             new_security_group_ids w all_groups body Hlist Hget).
  fold t wanted_groups current_group_names plan.
  destruct (modify_groups_run (sgm_client self) plan
              (Z.of_nat (size (wanted_groups ∖ current_group_names
                               ∪ current_group_names ∖ wanted_groups)))
              (set_trace t w)) as (done & Hdone & Hlocal & Hout).
  simpl in Hdone, Hout.
  destruct (for_each plan _ _) as [[[]|e'] [n w']]; simpl in *.
  - destruct Hout as [-> _]. rewrite Hdone in Hraise by exact Hfailing. discriminate.
  - destruct Hout as (Hlt & Hraise' & Htrace).
    assert (done = failing) as ->.
    { destruct (Nat.lt_trichotomy done failing) as [Hc|[Hc|Hc]]; [|exact Hc|].
      - rewrite Hbefore in Hraise' by exact Hc. discriminate.
      - rewrite Hdone in Hraise by exact Hc. discriminate. }
    rewrite Hraise in Hraise'. injection Hraise' as <-.
    assert (Hsize : size (wanted_groups ∖ current_group_names
                          ∪ current_group_names ∖ wanted_groups) = length plan)
      by apply plan_length.
    rewrite Hsize in Hlocal.
    split; [destruct e; exact Htrace|].
    destruct e; try reflexivity.
    rewrite Hlocal. do 3 f_equal. lia.
Qed.

(** X3. After the first call of the plan that fails, with whatever
    exception, no further group is added or removed; and an exception that
    is not a [ClientException] leaves [update_instance_security_group]
    unchanged, with its own message. *)
Theorem update_instance_security_group_stops_at_failure (self : SecurityGroupManager)
    (instance_id : string) (new_security_group_ids : list string) (w : world)
    (all_groups : list SecurityGroupResource)
    (body : option (gmap string (list SecurityGroupResource)))
    (failing : nat) (e : exn) :
  let t := trace w ++ [SecurityGroupsList; ClientGet (security_groups_url instance_id)] in
  let wanted_groups : gset string :=
    list_to_set (map (λ sg, sg_name (sg_apiresource sg))
      (filter (λ sg, sg_id (sg_apiresource sg) ∈ new_security_group_ids)
         (map Build_SecurityGroup all_groups))) in
  let current_group_names : gset string :=
    list_to_set (map (λ sg, sg_name (sg_apiresource sg)) (current_groups_of body)) in
  let plan := map (ServersAddSecurityGroup instance_id)
                (set_order (wanted_groups ∖ current_group_names)) ++
              map (ServersRemoveSecurityGroup instance_id)
                (set_order (current_group_names ∖ wanted_groups)) in
  let out := update_instance_security_group self instance_id new_security_group_ids w in
  svc_security_groups_list nova (trace w ++ [SecurityGroupsList]) = Ok all_groups →
  svc_client_get nova t = Ok body →
  (failing < length plan)%nat →
  (∀ i, (i < failing)%nat → call_answer t plan i = Ok ()) →
  call_answer t plan failing = Raise e →
  trace out.2 = t ++ take (S failing) plan ∧
  ((∀ code message, e ≠ ClientException code message) → out.1 = Raise e).
Proof.
  intros t wanted_groups current_group_names plan out Hlist Hget Hfailing Hbefore Hraise.
  destruct (update_instance_security_group_first_failure self instance_id
              new_security_group_ids w all_groups body failing e
              Hlist Hget Hfailing Hbefore Hraise) as [Htrace Hres].
  split; [exact Htrace|]. intros Hforeign.
  fold t wanted_groups current_group_names plan out in Hres. rewrite Hres.
  destruct e; try reflexivity. exfalso. eapply Hforeign. reflexivity.
Qed.

(** X4. When the instance already has exactly the wanted groups,
    [update_instance_security_group] returns [True] after fetching the two
    lists, without adding or removing anything. *)
Theorem update_instance_security_group_already_reconciled (self : SecurityGroupManager)
    (instance_id : string) (new_security_group_ids : list string) (w : world)
    (all_groups : list SecurityGroupResource)
    (body : option (gmap string (list SecurityGroupResource))) :
  let t := trace w ++ [SecurityGroupsList; ClientGet (security_groups_url instance_id)] in
  let wanted_groups : gset string :=
    list_to_set (map (λ sg, sg_name (sg_apiresource sg))
      (filter (λ sg, sg_id (sg_apiresource sg) ∈ new_security_group_ids)
         (map Build_SecurityGroup all_groups))) in
  let current_group_names : gset string :=
    list_to_set (map (λ sg, sg_name (sg_apiresource sg)) (current_groups_of body)) in
  svc_security_groups_list nova (trace w ++ [SecurityGroupsList]) = Ok all_groups →
  svc_client_get nova t = Ok body →
  wanted_groups = current_group_names →
  update_instance_security_group self instance_id new_security_group_ids w =
    (Ok true, set_trace t w).
Proof.
  intros t wanted_groups current_group_names Hlist Hget Hsame.
  rewrite (update_instance_security_group_run self instance_id
             new_security_group_ids w all_groups body Hlist Hget).
  fold t wanted_groups current_group_names. rewrite Hsame.
  assert (Hempty : current_group_names ∖ current_group_names = (∅ : gset string)).
  { apply set_eq. intros g. rewrite elem_of_difference, elem_of_empty. tauto. }
  rewrite Hempty.
  assert (Hnil : set_order ∅ = []).
  { apply Permutation_nil_r. rewrite (set_order_permutes ∅), elements_empty.
    reflexivity. }
  rewrite Hnil. reflexivity.
Qed.

(** X5. [update_instance_security_group] depends on the wanted identifiers
    only through which of the existing groups they select: identifiers of no
    existing group are ignored without an error, and neither the order nor
    repetitions of the identifiers matter. *)
Theorem update_instance_security_group_ids_as_selection (self : SecurityGroupManager)
    (instance_id : string) (ids ids' : list string) (w : world)
    (all_groups : list SecurityGroupResource) :
  svc_security_groups_list nova (trace w ++ [SecurityGroupsList]) = Ok all_groups →
  (∀ g, g ∈ all_groups → (sg_id g ∈ ids ↔ sg_id g ∈ ids')) →
  update_instance_security_group self instance_id ids w =
  update_instance_security_group self instance_id ids' w.
Proof.
  intros Hlist Hsel.
  assert (Hfilter :
    filter (λ sg, sg_id (sg_apiresource sg) ∈ ids) (map Build_SecurityGroup all_groups) =
    filter (λ sg, sg_id (sg_apiresource sg) ∈ ids') (map Build_SecurityGroup all_groups)).
  { clear Hlist. induction all_groups as [|g all_groups IH]; [reflexivity|].
    simpl. rewrite !filter_cons. simpl.
    rewrite IH by (intros g' Hg'; apply Hsel; right; exact Hg').
    destruct (decide (sg_id g ∈ ids)) as [Hin|Hin];
      destruct (decide (sg_id g ∈ ids')) as [Hin'|Hin']; try reflexivity;
      exfalso; apply (Hsel g (list_elem_of_here _ _)) in Hin || apply Hin;
      try contradiction; apply (Hsel g (list_elem_of_here _ _)); assumption. }
  destruct (svc_client_get nova
              (trace w ++ [SecurityGroupsList; ClientGet (security_groups_url instance_id)]))
    as [body|e] eqn:Hget.
  - rewrite !(update_instance_security_group_run self instance_id _ w all_groups body
                Hlist Hget).
    rewrite Hfilter. reflexivity.
  - rewrite !(update_instance_security_group_fetch_failure self instance_id _ w
                all_groups e Hlist Hget). reflexivity.
Qed.

(** ** More on server_list *)

(** X6. Without [search_opts], [server_list] works on a dictionary of its
    own: the library gets only the tenant filter, every row is returned with
    the more-data flag false, and no dictionary that existed before is
    changed. *)
Theorem server_list_without_search_opts (request : Request) (all_tenants : bool)
    (w : world) :
  let opts : gmap string pyval :=
    if all_tenants then {[ "all_tenants" := PyBool true ]}
    else {[ "project_id" := PyStr (tenant_id (user request)) ]} in
  let t := trace w ++ [ServersList true opts] in
  let out := server_list request None all_tenants w in
  (∀ d, (next_obj w ≤ d)%nat → dicts w !! d = None) →
  out.1 = match svc_servers_list nova t with
          | Ok rows => Ok (map (λ s, Build_Server s request) rows, false)
          | Raise e => Raise e
          end ∧
  trace out.2 = t ∧
  (∀ d m, dicts w !! d = Some m → dicts out.2 !! d = Some m).
Proof.
  intros opts t out Hfresh. subst out.
  assert (Hnc : ∃ c w1, novaclient request w = (Ok c, w1) ∧ trace w1 = trace w ∧
                        dicts w1 = dicts w ∧ (next_obj w ≤ next_obj w1)%nat).
  { unfold novaclient, memoized. rewrite run_bind. simpl.
    destruct (novaclient_cache w !! req_id request) as [c|].
    - exists c, w. repeat split; reflexivity || lia.
    - eexists _, _. split; [reflexivity|]. simpl. repeat split; lia. }
  destruct Hnc as (c & w1 & Hrun & Htr & Hd & Hnext).
  unfold server_list. rewrite (run_bind_ok _ _ _ _ _ Hrun).
  rewrite run_bind. unfold dict_new at 1. rewrite run_bind. unfold new_object at 1.
  rewrite !run_bind. simpl.
  match goal with
  | |- context [set_dicts ?f ?w0] =>
      destruct (server_list_tail request c (next_obj w1) (PyBool false) all_tenants
                  (set_dicts f w0)) as (w' & Heq & Hdicts & Htrace)
  end.
  simpl in Heq, Hdicts, Htrace. rewrite lookup_insert_eq in Heq, Hdicts, Htrace.
  simpl in Heq, Hdicts, Htrace.
  assert (Hopts : (if all_tenants
                   then <["all_tenants" := PyBool true]> (∅ : gmap string pyval)
                   else <["project_id" := PyStr (tenant_id (user request))]> ∅) = opts)
    by (subst opts; destruct all_tenants; reflexivity).
  rewrite Hopts, Htr in Heq, Htrace. rewrite Hopts in Hdicts. fold t in Heq, Htrace.
  rewrite Heq. simpl. split; [|split; [exact Htrace|]].
  - destruct (svc_servers_list nova t) as [rows|e]; reflexivity.
  - intros d m Hdm. rewrite Hdicts, insert_insert_eq.
    assert (d ≠ next_obj w1).
    { intros ->. rewrite Hfresh in Hdm by exact Hnext. discriminate. }
    rewrite lookup_insert_ne by congruence. rewrite Hd. exact Hdm.
Qed.

(** X7. When the caller's dictionary has no [paginate] key, or a false one,
    [server_list] returns every row with the more-data flag false, however
    many rows there are, and leaves the [limit] entry as it was. *)
Theorem server_list_not_paginated (request : Request) (d : nat) (all_tenants : bool)
    (w : world) :
  let m := default ∅ (dicts w !! d) in
  let m' := search_opts_after_call request all_tenants m in
  let t := trace w ++ [ServersList true m'] in
  let out := server_list request (Some d) all_tenants w in
  truthy (default (PyBool false) (m !! "paginate")) = false →
  out.1 = match svc_servers_list nova t with
          | Ok rows => Ok (map (λ s, Build_Server s request) rows, false)
          | Raise e => Raise e
          end ∧
  m' !! "limit" = m !! "limit".
Proof.
  intros m m' t out Hfalse.
  destruct (server_list_run request d all_tenants w) as (w' & Hrun & _).
  subst out. rewrite Hrun. simpl. fold m m' t. split.
  - destruct (svc_servers_list nova t) as [rows|e]; [|reflexivity].
    unfold server_list_result. rewrite Hfalse. reflexivity.
  - subst m'. unfold search_opts_after_call. fold m.
    destruct (m !! "paginate") as [p|] eqn:Hp; simpl in Hfalse.
    + rewrite Hfalse. destruct all_tenants;
        rewrite lookup_insert_ne by discriminate;
        apply lookup_delete_ne; discriminate.
    + destruct all_tenants; apply lookup_insert_ne; discriminate.
Qed.

(** X8. A call of [server_list] with a dictionary makes exactly one library
    call, [servers.list(True, search_opts)] with the dictionary as it has
    been changed; it changes no other dictionary; and an error of the
    library propagates unchanged, with the dictionary already changed. *)
Theorem server_list_single_call (request : Request) (d : nat) (all_tenants : bool)
    (w : world) :
  let m' := search_opts_after_call request all_tenants (default ∅ (dicts w !! d)) in
  let t := trace w ++ [ServersList true m'] in
  let out := server_list request (Some d) all_tenants w in
  trace out.2 = t ∧
  dicts out.2 = <[d := m']> (dicts w) ∧
  (∀ e, svc_servers_list nova t = Raise e → out.1 = Raise e).
Proof.
  intros m' t out.
  destruct (server_list_run request d all_tenants w) as (w' & Hrun & Hdicts & Htrace).
  subst out. rewrite Hrun. simpl. split; [exact Htrace|]. split; [exact Hdicts|].
  intros e He. fold m' t. rewrite He. reflexivity.
Qed.

(** X9. A paginated [server_list] call drops at most one row: when the
    library returns more rows than the page size, however many more, the
    result is all the rows but the last. *)
Theorem server_list_drops_one_row (request : Request) (d : nat) (all_tenants : bool)
    (w : world) (paginate : pyval) (rows : list ServerResource) :
  default ∅ (dicts w !! d) !! "paginate" = Some paginate →
  truthy paginate = true →
  svc_servers_list nova
    (trace w ++ [ServersList true
       (search_opts_after_call request all_tenants (default ∅ (dicts w !! d)))])
    = Ok rows →
  0 ≤ get_page_size request < Z.of_nat (length rows) →
  (server_list request (Some d) all_tenants w).1 =
    Ok (map (λ s, Build_Server s request) (take (length rows - 1) rows), true).
Proof.
  intros Hp Htruthy Hsvc Hsize.
  destruct (server_list_run request d all_tenants w) as (w' & Hrun & _).
  rewrite Hrun, Hsvc, Hp. simpl. clear Hrun.
  unfold server_list_result. rewrite Htruthy, length_map. simpl.
  assert (Hlt : (get_page_size request <? Z.of_nat (length rows)) = true)
    by (apply Z.ltb_lt; lia).
  rewrite Hlt, (list_pop_last_take _ (length rows - 1)) by (rewrite length_map; lia).
  rewrite <- fmap_take. reflexivity.
Qed.

(** X10. With a negative page size, a paginated [server_list] call that gets
    no rows raises [IndexError]: it pops from the empty list. *)
Theorem server_list_negative_page_size (request : Request) (d : nat)
    (all_tenants : bool) (w : world) (paginate : pyval) :
  default ∅ (dicts w !! d) !! "paginate" = Some paginate →
  truthy paginate = true →
  svc_servers_list nova
    (trace w ++ [ServersList true
       (search_opts_after_call request all_tenants (default ∅ (dicts w !! d)))])
    = Ok [] →
  get_page_size request < 0 →
  (server_list request (Some d) all_tenants w).1 =
    Raise (IndexError "pop from empty list").
Proof.
  intros Hp Htruthy Hsvc Hsize.
  destruct (server_list_run request d all_tenants w) as (w' & Hrun & _).
  rewrite Hrun, Hsvc, Hp. simpl. clear Hrun.
  assert (Hlt : (get_page_size request <? 0) = true) by (apply Z.ltb_lt; lia).
  unfold server_list_result. rewrite Htruthy. cbn [map length andb].
  change (Z.of_nat 0) with 0. rewrite Hlt. reflexivity.
Qed.

(** ** More on the limits *)

Lemma limits_fold_invariant (limits : list AbsoluteLimit) (d : gmap string limit_val) :
  let d' := foldl (λ d l, <[limit_name l := corrected_limit l]> d) d limits in
  dom d' = dom d ∪ list_to_set (map limit_name limits) ∧
  ((∀ name v, d !! name = Some (LimInt v) → 0 ≤ v) →
   ∀ name v, d' !! name = Some (LimInt v) → 0 ≤ v).
Proof.
  revert d. induction limits as [|l limits IH]; intros d; simpl.
  - split; [|auto]. rewrite union_empty_r_L. reflexivity.
  - destruct (IH (<[limit_name l := corrected_limit l]> d)) as [Hdom Hval]. split.
    + rewrite Hdom, dom_insert_L.
      apply set_eq. intros x. rewrite !elem_of_union, elem_of_singleton. tauto.
    + intros Hd. apply Hval. intros name v.
      destruct (decide (name = limit_name l)) as [->|Hne].
      * rewrite lookup_insert_eq. unfold corrected_limit.
        destruct (Z.ltb_spec (limit_value l) 0);
          [destruct (startswith _ _ && endswith _ _)|]; intros [= <-]; lia.
      * rewrite lookup_insert_ne by congruence. apply Hd.
Qed.

(** X11. The dictionary [tenant_absolute_limits] returns has exactly the
    names of the limits the library returned, and none of its values is a
    negative number; the library is called once, with the [reserved] flag. *)
Theorem tenant_absolute_limits_never_negative (request : Request) (reserved : bool)
    (w : world) (limits : list AbsoluteLimit) :
  svc_limits_get nova (trace w ++ [LimitsGet reserved]) = Ok limits →
  ∃ limits_dict w',
    tenant_absolute_limits request reserved w = (Ok limits_dict, w') ∧
    trace w' = trace w ++ [LimitsGet reserved] ∧
    dom limits_dict = list_to_set (map limit_name limits) ∧
    (∀ name v, limits_dict !! name = Some (LimInt v) → 0 ≤ v).
Proof.
  intros Hsvc.
  destruct (novaclient_run request w) as (c & w1 & Hrun & Htr & _).
  unfold tenant_absolute_limits.
  rewrite (run_bind_ok _ _ _ _ _ Hrun).
  rewrite run_bind. unfold library_call at 1. rewrite Htr, Hsvc.
  rewrite (for_fold_pure (λ d l, <[limit_name l := corrected_limit l]> d)).
  2:{ intros acc x s. unfold corrected_limit.
      destruct (limit_value x <? 0);
        [destruct (startswith _ _ && endswith _ _)|]; reflexivity. }
  eexists _, _. split; [reflexivity|]. split; [reflexivity|].
  destruct (limits_fold_invariant limits ∅) as [Hdom Hval]. split.
  - rewrite Hdom, dom_empty_L, union_empty_l_L. reflexivity.
  - apply Hval. intros name v. rewrite lookup_empty. discriminate.
Qed.

(** ** More on evacuate_host *)

Lemma evacuate_step_local (request : Request) (target : option string)
    (on_shared_storage : bool) (server : gmap string string)
    (response : list string) (err_code : option Z) (w : world) :
  let t' := trace w ++ [evacuate_call target on_shared_storage server] in
  well_formed_server server →
  (∀ e, svc_servers_evacuate nova t' = Raise e →
        ∃ code message, e = ClientException code message) →
  ∃ acc w',
    evacuate_body request target on_shared_storage (response, err_code) server w =
      (Ok acc, w') ∧
    trace w' = t'.
Proof.
  intros t' [[uuid Huuid] [name Hname]] Honly. subst t'.
  destruct (novaclient_run request w) as (c & w1 & Hrun & Htr & _).
  unfold evacuate_body, try_except, evacuate_call in *.
  rewrite (run_bind_ok _ _ _ _ _ Hrun).
  unfold getitem, lift_result. rewrite Huuid, Hname in *.
  rewrite !run_bind, library_call_run, Htr. simpl in *.
  destruct (svc_servers_evacuate nova _) as [[]|e] eqn:Hsvc.
  - eexists _, _. split; reflexivity.
  - destruct (Honly _ eq_refl) as (code & message & ->). simpl.
    eexists _, _. split; reflexivity.
Qed.

(** The loop goes through servers whose evacuations are tolerated. *)
Lemma evacuate_loop_tolerated (request : Request) (target : option string)
    (on_shared_storage : bool) (servers : list (gmap string string))
    (acc : list string * option Z) (w : world) :
  evacuations_tolerated target on_shared_storage (trace w) servers →
  ∃ acc' w',
    for_fold servers (evacuate_body request target on_shared_storage) acc w =
      (Ok acc', w') ∧
    trace w' = trace w ++ map (evacuate_call target on_shared_storage) servers.
Proof.
  revert acc w. induction servers as [|server servers IH]; intros acc w Htol.
  - exists acc, w. simpl. rewrite app_nil_r. split; reflexivity.
  - destruct acc as [response err_code].
    destruct (Htol 0%nat server eq_refl) as [Hwf Honly]. simpl in Honly.
    destruct (evacuate_step_local request target on_shared_storage server response
                err_code w Hwf Honly) as (acc1 & w1 & Hstep & Htr1).
    cbn [for_fold]. rewrite (run_bind_ok _ _ _ _ _ Hstep).
    destruct (IH acc1 w1) as (acc' & w' & Hloop & Htrace).
    { intros i s Hi. rewrite Htr1.
      destruct (Htol (S i) s Hi) as [Hwf' Honly']. split; [exact Hwf'|].
      intros e He. apply Honly'. simpl. rewrite <- app_assoc in He. exact He. }
    exists acc', w'. split; [exact Hloop|].
    rewrite Htrace, Htr1, <- app_assoc. reflexivity.
Qed.

(** [evacuate_host] up to a server at which the body of the loop raises. *)
Lemma evacuate_host_aborts (request : Request) (host : string)
    (target : option string) (on_shared_storage : bool) (w : world)
    (hypervisors : list HypervisorResource)
    (before after : list (gmap string string)) (server : gmap string string) :
  let t0 := trace w ++ [HypervisorsSearch host true] in
  svc_hypervisors_search nova t0 = Ok hypervisors →
  concat (map (λ h, default [] (hypervisor_servers h)) hypervisors)
    = before ++ server :: after →
  evacuations_tolerated target on_shared_storage t0 before →
  ∃ acc w1,
    trace w1 = t0 ++ map (evacuate_call target on_shared_storage) before ∧
    ∀ e w2,
      evacuate_body request target on_shared_storage acc server w1 = (Raise e, w2) →
      evacuate_host request host target on_shared_storage w = (Raise e, w2).
Proof.
  intros t0 Hsearch Hservers Htol.
  destruct (novaclient_run request w) as (c & w0 & Hrun & Htr & _).
  destruct (evacuate_loop_tolerated request target on_shared_storage before ([], None)
              (set_trace t0 w0) Htol) as (acc & w1 & Hloop & Htrace).
  exists acc, w1. split; [exact Htrace|]. intros e w2 Hbody.
  unfold evacuate_host.
  rewrite (run_bind_ok _ _ _ _ _ Hrun), run_bind, library_call_run, Htr.
  fold t0. rewrite Hsearch. rewrite run_bind.
  rewrite (for_fold_hypervisors
             (evacuate_body request target on_shared_storage) hypervisors).
  rewrite Hservers, for_fold_app, (run_bind_ok _ _ _ _ _ Hloop).
  cbn [for_fold]. rewrite run_bind, Hbody. reflexivity.
Qed.

(** X12. An exception of [servers.evacuate] that is not a [ClientException]
    is not accumulated: [evacuate_host] raises it unchanged at once, and the
    servers after that one are not evacuated. *)
Theorem evacuate_host_stops_at_other_error (request : Request) (host : string)
    (target : option string) (on_shared_storage : bool) (w : world)
    (hypervisors : list HypervisorResource)
    (before after : list (gmap string string)) (server : gmap string string)
    (e : exn) :
  let t0 := trace w ++ [HypervisorsSearch host true] in
  let out := evacuate_host request host target on_shared_storage w in
  svc_hypervisors_search nova t0 = Ok hypervisors →
  concat (map (λ h, default [] (hypervisor_servers h)) hypervisors)
    = before ++ server :: after →
  evacuations_tolerated target on_shared_storage t0 before →
  is_Some (server !! "uuid") →
  svc_servers_evacuate nova
    (t0 ++ map (evacuate_call target on_shared_storage) (before ++ [server])) = Raise e →
  (∀ code message, e ≠ ClientException code message) →
  out.1 = Raise e ∧
  trace out.2 = t0 ++ map (evacuate_call target on_shared_storage) (before ++ [server]).
Proof.
  intros t0 out Hsearch Hservers Htol [uuid Huuid] Hsvc Hforeign.
  destruct (evacuate_host_aborts request host target on_shared_storage w hypervisors
              before after server Hsearch Hservers Htol) as (acc & w1 & Htrace & Habort).
  fold t0 in Htrace. rewrite map_app, app_assoc, <- Htrace in Hsvc. simpl in Hsvc.
  destruct (novaclient_run request w1) as (c & w2 & Hrun & Htr & _).
  assert (Hbody : evacuate_body request target on_shared_storage acc server w1 =
                  (Raise e, set_trace (trace w1 ++
                     [evacuate_call target on_shared_storage server]) w2)).
  { destruct acc as [response err_code].
    unfold evacuate_body, try_except, evacuate_call in *.
    rewrite (run_bind_ok _ _ _ _ _ Hrun).
    unfold getitem, lift_result. rewrite Huuid in *.
    rewrite !run_bind, library_call_run, Htr. simpl in *. rewrite Hsvc.
    destruct e; try reflexivity. exfalso. eapply Hforeign. reflexivity. }
  subst out. rewrite (Habort _ _ Hbody). simpl. split; [reflexivity|].
  rewrite Htrace, map_app, app_assoc. reflexivity.
Qed.

(** X13. A server entry without a [uuid] key makes [evacuate_host] raise
    [KeyError] when its turn comes: [servers.evacuate] is not called for it,
    and the servers after it are not evacuated. *)
Theorem evacuate_host_missing_uuid (request : Request) (host : string)
    (target : option string) (on_shared_storage : bool) (w : world)
    (hypervisors : list HypervisorResource)
    (before after : list (gmap string string)) (server : gmap string string) :
  let t0 := trace w ++ [HypervisorsSearch host true] in
  let out := evacuate_host request host target on_shared_storage w in
  svc_hypervisors_search nova t0 = Ok hypervisors →
  concat (map (λ h, default [] (hypervisor_servers h)) hypervisors)
    = before ++ server :: after →
  evacuations_tolerated target on_shared_storage t0 before →
  server !! "uuid" = None →
  out.1 = Raise (KeyError "uuid") ∧
  trace out.2 = t0 ++ map (evacuate_call target on_shared_storage) before.
Proof.
  intros t0 out Hsearch Hservers Htol Huuid.
  destruct (evacuate_host_aborts request host target on_shared_storage w hypervisors
              before after server Hsearch Hservers Htol) as (acc & w1 & Htrace & Habort).
  destruct (novaclient_run request w1) as (c & w2 & Hrun & Htr & _).
  assert (Hbody : evacuate_body request target on_shared_storage acc server w1 =
                  (Raise (KeyError "uuid"), w2)).
  { destruct acc as [response err_code].
    unfold evacuate_body, try_except.
    rewrite (run_bind_ok _ _ _ _ _ Hrun).
    unfold getitem, lift_result. rewrite Huuid. reflexivity. }
  subst out. rewrite (Habort _ _ Hbody). simpl. split; [reflexivity|].
  rewrite Htr. exact Htrace.
Qed.

(** X14. When the hypervisors the search returns have no servers,
    [evacuate_host] returns [True] after that single library call. *)
Theorem evacuate_host_nothing_to_evacuate (request : Request) (host : string)
    (target : option string) (on_shared_storage : bool) (w : world)
    (hypervisors : list HypervisorResource) :
  let t0 := trace w ++ [HypervisorsSearch host true] in
  let out := evacuate_host request host target on_shared_storage w in
  svc_hypervisors_search nova t0 = Ok hypervisors →
  Forall (λ h, hypervisor_servers h = None ∨ hypervisor_servers h = Some []) hypervisors →
  out.1 = Ok true ∧ trace out.2 = t0.
Proof.
  intros t0 out Hsearch Hnone.
  destruct (novaclient_run request w) as (c & w0 & Hrun & Htr & _).
  assert (Hservers : concat (map (λ h, default [] (hypervisor_servers h)) hypervisors) = []).
  { clear -Hnone. induction Hnone as [|h hs [Hh|Hh] _ IH]; [reflexivity|..];
      simpl; rewrite Hh, IH; reflexivity. }
  subst out. unfold evacuate_host.
  rewrite (run_bind_ok _ _ _ _ _ Hrun), run_bind, library_call_run, Htr.
  fold t0. rewrite Hsearch. rewrite run_bind.
  rewrite (for_fold_hypervisors
             (evacuate_body request target on_shared_storage) hypervisors).
  rewrite Hservers. simpl. split; reflexivity.
Qed.

(** ** More on the client handle *)

Lemma novaclient_keeps_consistent (request : Request) (w : world) :
  cache_consistent w → cache_consistent (novaclient request w).2.
Proof.
  intros [Hbound Hinj]. unfold novaclient, memoized. rewrite run_bind. simpl.
  destruct (novaclient_cache w !! req_id request) as [c|] eqn:Hc; simpl.
  - split; assumption.
  - split; simpl.
    + intros i c. destruct (decide (i = req_id request)) as [->|Hne].
      * rewrite lookup_insert_eq. intros [= <-]. simpl. lia.
      * rewrite lookup_insert_ne by congruence. intros Hi.
        specialize (Hbound i c Hi). lia.
    + intros i j c c'.
      destruct (decide (i = req_id request)) as [->|Hi];
        destruct (decide (j = req_id request)) as [->|Hj];
        rewrite ?lookup_insert_eq, ?lookup_insert_ne by congruence.
      * reflexivity.
      * intros [= <-] Hj'. simpl. intros Heq.
        specialize (Hbound j c' Hj'). lia.
      * intros Hi' [= <-]. simpl. intros Heq.
        specialize (Hbound i c Hi'). lia.
      * apply Hinj.
Qed.

(** X15. Two different request contexts never share a handle: in a world
    whose cache is consistent (as the empty cache is), the handles
    [novaclient] returns for two contexts have different identities, and the
    cache stays consistent. *)
Theorem novaclient_distinct_contexts (request1 request2 : Request) (w : world) :
  cache_consistent w →
  req_id request1 ≠ req_id request2 →
  ∃ c1 c2 w1 w2,
    novaclient request1 w = (Ok c1, w1) ∧
    novaclient request2 w1 = (Ok c2, w2) ∧
    client_id c1 ≠ client_id c2 ∧
    cache_consistent w2.
Proof.
  intros Hw Hne.
  destruct (novaclient_run request1 w) as (c1 & w1 & Hrun1 & _ & _ & Hc1 & _).
  destruct (novaclient_run request2 w1) as (c2 & w2 & Hrun2 & _ & _ & Hc2 & _).
  pose proof (novaclient_keeps_consistent request1 w Hw) as Hw1.
  rewrite Hrun1 in Hw1. simpl in Hw1.
  pose proof (novaclient_keeps_consistent request2 w1 Hw1) as Hw2.
  rewrite Hrun2 in Hw2. simpl in Hw2.
  exists c1, c2, w1, w2. split; [exact Hrun1|]. split; [exact Hrun2|].
  split; [|exact Hw2].
  pose proof (novaclient_keeps_cache request2 w1 _ _ Hc1) as Hc1'.
  rewrite Hrun2 in Hc1'. simpl in Hc1'.
  intros Heq. apply Hne. exact (proj2 Hw2 _ _ _ _ Hc1' Hc2 Heq).
Qed.

(** ** More on flavors and aggregates *)

(** X16. With no metadata, or empty metadata, [flavor_extra_set] still
    fetches the flavor, so that an unknown flavor raises the library's
    error, but never calls [set_keys], and returns [None]. *)
Theorem flavor_extra_set_without_metadata (request : Request) (flavor_id : string)
    (metadata : option (gmap string string)) (w : world) :
  let t := trace w ++ [FlavorsGet flavor_id] in
  let out := flavor_extra_set request flavor_id metadata w in
  metadata_truthy metadata = false →
  trace out.2 = t ∧
  out.1 = match svc_flavors_get nova t with
          | Ok _ => Ok None
          | Raise e => Raise e
          end.
Proof.
  intros t out Hmeta.
  destruct (novaclient_run request w) as (c & w1 & Hrun & Htr & _).
  subst out. unfold flavor_extra_set.
  rewrite (run_bind_ok _ _ _ _ _ Hrun), run_bind, library_call_run, Htr.
  fold t. destruct (svc_flavors_get nova t) as [flavor|e]; [|split; reflexivity].
  rewrite Hmeta. split; reflexivity.
Qed.

(** X17. [flavor_create] does not undo the creation when setting the
    metadata fails: if [flavors.get] or [set_keys] raises after
    [flavors.create] has succeeded, [flavor_create] raises that error
    unchanged, with the creation already made and not followed by any
    deletion. *)
Theorem flavor_create_metadata_failure (request : Request) (name : string)
    (memory vcpu disk : Z) (flavorid : string) (ephemeral swap : Z)
    (metadata : option (gmap string string)) (is_public : bool) (w : world)
    (flavor : Flavor) (e : exn) :
  let create := FlavorsCreate name memory vcpu disk flavorid ephemeral swap is_public in
  let t2 := trace w ++ [create; FlavorsGet (fl_id flavor)] in
  let out := flavor_create request name memory vcpu disk flavorid ephemeral swap
               metadata is_public w in
  metadata_truthy metadata = true →
  svc_flavors_create nova (trace w ++ [create]) = Ok flavor →
  (svc_flavors_get nova t2 = Raise e ∨
   ∃ flavor', svc_flavors_get nova t2 = Ok flavor' ∧
              svc_flavor_set_keys nova
                (t2 ++ [FlavorSetKeys (fl_id flavor') (default ∅ metadata)]) = Raise e) →
  out.1 = Raise e ∧
  ∃ rest, trace out.2 = trace w ++ create :: rest ∧
          ∀ ev, ev ∈ rest → ∀ f, ev ≠ FlavorsDelete f.
Proof.
  intros create t2 out Hmeta Hcreate Hfail.
  destruct (novaclient_run request w) as (c & w1 & Hrun & Htr & _).
  subst out. unfold flavor_create.
  rewrite (run_bind_ok _ _ _ _ _ Hrun), run_bind, library_call_run, Htr.
  fold create. rewrite Hcreate, Hmeta. rewrite !run_bind.
  pose proof (flavor_extra_set_run request (fl_id flavor) metadata
                (set_trace (trace w ++ [create]) w1) Hmeta) as Hextra.
  simpl in Hextra. rewrite <- !app_assoc in Hextra. simpl in Hextra. fold t2 in Hextra.
  destruct Hfail as [Hget|(flavor' & Hget & Hset)]; rewrite Hget in Hextra.
  - destruct Hextra as [Hres Htrace].
    destruct (flavor_extra_set _ _ _ _) as [[x|e'] w2]; simpl in *; [discriminate|].
    injection Hres as ->. split; [reflexivity|].
    exists [FlavorsGet (fl_id flavor)]. split; [exact Htrace|].
    intros ev Hev f. apply list_elem_of_singleton in Hev as ->. discriminate.
  - rewrite Hset in Hextra. destruct Hextra as [Htrace Hres].
    destruct (flavor_extra_set _ _ _ _) as [[x|e'] w2]; simpl in *; [discriminate|].
    injection Hres as ->. split; [reflexivity|].
    exists [FlavorsGet (fl_id flavor); FlavorSetKeys (fl_id flavor') (default ∅ metadata)].
    split; [rewrite Htrace; unfold t2; rewrite <- app_assoc; reflexivity|].
    intros ev Hev f.
    apply elem_of_cons in Hev as [->|Hev]; [discriminate|].
    apply list_elem_of_singleton in Hev as ->. discriminate.
Qed.

Lemma aggregate_details_loop_ok (c : Client) (aggregates result : list Aggregate)
    (w : world) :
  (∀ i, (i < length aggregates)%nat →
     ∃ d, svc_aggregates_get_details nova
            (trace w ++ map (λ a, AggregatesGetDetails (agg_id a)) (take (S i) aggregates))
          = Ok d) →
  ∃ details w',
    for_fold aggregates (λ result aggregate,
      details ← library_call c (AggregatesGetDetails (agg_id aggregate))
                  (svc_aggregates_get_details nova);
      mret (result ++ [details])) result w = (Ok (result ++ details), w') ∧
    length details = length aggregates ∧
    ∀ i d, details !! i = Some d →
      svc_aggregates_get_details nova
        (trace w ++ map (λ a, AggregatesGetDetails (agg_id a)) (take (S i) aggregates))
      = Ok d.
Proof.
  revert result w. induction aggregates as [|a aggregates IH]; intros result w Hok.
  - exists [], w. simpl. rewrite app_nil_r. split; [reflexivity|].
    split; [reflexivity|]. intros i d Hi. discriminate.
  - destruct (Hok 0%nat) as [d0 Hd0]; [simpl; lia|]. simpl in Hd0.
    cbn [for_fold]. rewrite !run_bind, library_call_run, Hd0. simpl.
    destruct (IH (result ++ [d0])
                (set_trace (trace w ++ [AggregatesGetDetails (agg_id a)]) w))
      as (details & w' & Hloop & Hlen & Hnth).
    { intros i Hi. destruct (Hok (S i)) as [d Hd]; [simpl; lia|].
      exists d. simpl in Hd |- *. rewrite <- app_assoc. exact Hd. }
    exists (d0 :: details), w'. split; [|split].
    + rewrite Hloop, <- app_assoc. reflexivity.
    + simpl. rewrite Hlen. reflexivity.
    + intros [|i] d Hi.
      * injection Hi as <-. exact Hd0.
      * specialize (Hnth i d Hi). simpl in Hnth |- *.
        rewrite <- app_assoc in Hnth. exact Hnth.
Qed.

(** X18. When every [get_details] call succeeds, [aggregate_details_list]
    returns one entry per aggregate, in the order of [aggregates.list], the
    i-th entry being the library's answer for the i-th aggregate. *)
Theorem aggregate_details_list_in_order (request : Request) (w : world)
    (aggregates : list Aggregate) :
  let t1 := trace w ++ [AggregatesList] in
  let answer i :=
    svc_aggregates_get_details nova
      (t1 ++ map (λ a, AggregatesGetDetails (agg_id a)) (take (S i) aggregates)) in
  svc_aggregates_list nova t1 = Ok aggregates →
  (∀ i, (i < length aggregates)%nat → ∃ d, answer i = Ok d) →
  ∃ details,
    (aggregate_details_list request w).1 = Ok details ∧
    length details = length aggregates ∧
    ∀ i d, details !! i = Some d → answer i = Ok d.
Proof.
  intros t1 answer Hlist Hok.
  destruct (novaclient_run request w) as (c & w1 & Hrun & Htr & _).
  unfold aggregate_details_list.
  rewrite (run_bind_ok _ _ _ _ _ Hrun), run_bind, library_call_run, Htr.
  fold t1. rewrite Hlist.
  destruct (aggregate_details_loop_ok c aggregates [] (set_trace t1 w1) Hok)
    as (details & w' & Hloop & Hlen & Hnth).
  exists details. rewrite Hloop. simpl. split; [reflexivity|].
  split; [exact Hlen|exact Hnth].
Qed.

(** ** Usage records *)

Lemma fold_outcome_app {A B} (f : B → A → outcome B) (acc : B) (l1 l2 : list A) :
  fold_outcome f acc (l1 ++ l2) =
    match fold_outcome f acc l1 with
    | Value acc' => fold_outcome f acc' l2
    | Error e => Error e
    end.
Proof.
  revert acc. induction l1 as [|x l1 IH]; intros acc; simpl; [reflexivity|].
  destruct (f acc x); [apply IH|reflexivity].
Qed.

Lemma fold_outcome_skip {A B} (f : B → A → outcome B) (acc : B)
    (before after : list A) (x : A) :
  (∀ a, f a x = Value a) →
  fold_outcome f acc (before ++ x :: after) = fold_outcome f acc (before ++ after).
Proof.
  intros Hskip. rewrite !fold_outcome_app. simpl.
  destruct (fold_outcome f acc before); [rewrite Hskip|]; reflexivity.
Qed.

Lemma fold_outcome_shifted {A} (f : Z → A → outcome Z) (l : list A) :
  (∀ acc k x, f (acc + k) x = shifted k (f acc x)) →
  ∀ acc k, fold_outcome f (acc + k) l = shifted k (fold_outcome f acc l).
Proof.
  intros Hf. induction l as [|x l IH]; intros acc k; simpl; [reflexivity|].
  rewrite Hf. destruct (f acc x); simpl; [apply IH|reflexivity].
Qed.

Lemma fold_outcome_additive {A} (f : Z → A → outcome Z) (l1 l2 : list A) (a b : Z) :
  (∀ acc k x, f (acc + k) x = shifted k (f acc x)) →
  fold_outcome f 0 l1 = Value a →
  fold_outcome f 0 l2 = Value b →
  fold_outcome f 0 (l1 ++ l2) = Value (a + b).
Proof.
  intros Hf H1 H2. rewrite fold_outcome_app, H1.
  replace a with (0 + a) at 1 by lia.
  rewrite (fold_outcome_shifted f l2 Hf), H2. simpl. f_equal. lia.
Qed.

Lemma ended_at_is_none_ended (s : gmap string uval) :
  has_ended s → ended_at_is_none s = Value false.
Proof.
  intros (v & Hv & Hne). unfold ended_at_is_none, subscript. rewrite Hv. simpl.
  unfold mret, outcome_ret. rewrite bool_decide_false by exact Hne. reflexivity.
Qed.

(** X19. A server usage whose [ended_at] is set counts for nothing: with or
    without it, the number of active instances, the sums of [vcpus],
    [local_gb] and [memory_mb], and the two figures on secondary instances
    are the same, whatever else the entry holds or lacks. *)
Theorem usage_ignores_ended_servers (before after : list (gmap string uval))
    (s : gmap string uval) :
  let all := {| server_usages := before ++ s :: after |} in
  let others := {| server_usages := before ++ after |} in
  has_ended s →
  total_active_instances all = total_active_instances others ∧
  vcpus all = vcpus others ∧
  local_gb all = local_gb others ∧
  memory_mb all = memory_mb others ∧
  ft_total_secondary_instances all = ft_total_secondary_instances others ∧
  ft_secondary_memory_mb all = ft_secondary_memory_mb others.
Proof.
  intros all others Hended.
  pose proof (ended_at_is_none_ended s Hended) as Hs.
  unfold total_active_instances, vcpus, local_gb, memory_mb, sum_of_active,
    ft_total_secondary_instances, ft_secondary_memory_mb. simpl.
  repeat split; apply fold_outcome_skip; intros a; rewrite Hs; reflexivity.
Qed.

Lemma total_active_instances_count (usages : list (gmap string uval)) (acc : Z) :
  Forall (λ s, is_Some (s !! "ended_at")) usages →
  fold_outcome (λ acc s,
    active ← ended_at_is_none s;
    if active : bool then mret (acc + 1) else mret acc) acc usages =
  Value (acc + Z.of_nat (length (filter (λ s, s !! "ended_at" = Some (UScalar SNone))
                                   usages))).
Proof.
  intros Hall. revert acc. induction Hall as [|s usages [v Hv] _ IH]; intros acc; simpl.
  - f_equal. lia.
  - unfold ended_at_is_none, subscript. rewrite Hv. simpl.
    rewrite filter_cons. destruct (decide (v = UScalar SNone)) as [->|Hne].
    + rewrite bool_decide_true by reflexivity. simpl. rewrite IH.
      rewrite decide_True by exact Hv. simpl. f_equal. lia.
    + rewrite bool_decide_false by exact Hne. simpl. rewrite IH.
      rewrite decide_False by (rewrite Hv; congruence). reflexivity.
Qed.

(** X20. When every server usage has an [ended_at] key,
    [total_active_instances] is the number of usages whose [ended_at] is
    [None]; the first usage without the key makes it raise [KeyError]. *)
Theorem total_active_instances_counts_active (usages after : list (gmap string uval))
    (s : gmap string uval) :
  Forall (λ s, is_Some (s !! "ended_at")) usages →
  total_active_instances {| server_usages := usages |} =
    Value (Z.of_nat (length (filter (λ s, s !! "ended_at" = Some (UScalar SNone)) usages))) ∧
  (s !! "ended_at" = None →
   total_active_instances {| server_usages := usages ++ s :: after |} =
     Error (PyKeyError "ended_at")).
Proof.
  intros Hall. unfold total_active_instances. simpl. split.
  - rewrite (total_active_instances_count usages 0 Hall). reflexivity.
  - intros Hs. rewrite fold_outcome_app, (total_active_instances_count usages 0 Hall).
    simpl. unfold ended_at_is_none, subscript. rewrite Hs. reflexivity.
Qed.

Lemma sum_secondary_memory_shifted (acc k : Z) (v : uval) :
  sum_secondary_memory (acc + k) v = shifted k (sum_secondary_memory acc v).
Proof.
  destruct v as [[| |s]|l]; simpl; try reflexivity.
  - destruct (String.eqb s ""); reflexivity.
  - apply fold_outcome_shifted. intros acc' k' fts.
    destruct (subscript fts "memory_mb") as [[| |z]|e]; simpl; try reflexivity.
    f_equal. lia.
Qed.

(** X21. The figures of a usage record add up: when a figure is defined on
    two lists of server usages, on their concatenation it is the sum. *)
Theorem usage_figures_additive :
  additive total_active_instances ∧ additive vcpus ∧ additive local_gb ∧
  additive memory_mb ∧ additive ft_total_secondary_instances ∧
  additive ft_secondary_memory_mb.
Proof.
  assert (Hsum : ∀ key, additive (sum_of_active key)).
  { intros key usages1 usages2 a b. apply fold_outcome_additive.
    intros acc k s. destruct (ended_at_is_none s) as [[|]|e]; simpl; try reflexivity.
    destruct (subscript s key) as [[[| |z]|l]|e]; simpl; try reflexivity.
    f_equal. lia. }
  split; [|split; [apply Hsum|split; [apply Hsum|split; [apply Hsum|split]]]].
  - intros usages1 usages2 a b. apply fold_outcome_additive.
    intros acc k s. destruct (ended_at_is_none s) as [[|]|e]; simpl; try reflexivity.
    unfold mret, outcome_ret. f_equal. lia.
  - intros usages1 usages2 a b. apply fold_outcome_additive.
    intros acc k s. destruct (ended_at_is_none s) as [[|]|e]; simpl; try reflexivity.
    destruct (py_len _) as [n|e]; simpl; try reflexivity.
    unfold mret, outcome_ret. f_equal. lia.
  - intros usages1 usages2 a b. apply fold_outcome_additive.
    intros acc k s. destruct (ended_at_is_none s) as [[|]|e]; simpl; try reflexivity.
    destruct (bool_decide _); simpl; try reflexivity.
    destruct (subscript s "ft_secondary_usage") as [v|e]; simpl; try reflexivity.
    apply sum_secondary_memory_shifted.
Qed.

(** ** The registry of form field classes *)

Lemma define_field_classes_snoc (registry : gset string)
    (defs : list (string * list string)) (cls : string) (bases : list string) :
  define_field_classes registry (defs ++ [(cls, bases)]) =
    ({[ cls ]} ∪ define_field_classes registry defs) ∖ list_to_set bases.
Proof. unfold define_field_classes. rewrite foldl_app. reflexivity. Qed.

(** X22. When every class is defined before the classes that name it as a
    base, the registry built by the class definitions holds exactly the
    classes that no defined class names as a base: registering a class
    removes its bases, so only the leaves of the hierarchy stay. *)
Theorem registry_holds_leaf_classes (defs : list (string * list string)) :
  (∀ i j cls bases derived bases',
     defs !! i = Some (cls, bases) → defs !! j = Some (derived, bases') →
     cls ∈ bases' → (i < j)%nat) →
  ∀ cls, cls ∈ define_field_classes ∅ defs ↔
         (∃ bases, (cls, bases) ∈ defs) ∧
         (∀ derived bases', (derived, bases') ∈ defs → cls ∉ bases').
Proof.
  induction defs as [|[d bs] defs IH] using rev_ind; intros Horder cls.
  - simpl. rewrite elem_of_empty. split; [tauto|].
    intros [[bases Hin] _]. inversion Hin.
  - rewrite define_field_classes_snoc, elem_of_difference, elem_of_union,
      elem_of_singleton, elem_of_list_to_set.
    assert (Horder' : ∀ i j cls bases derived bases',
              defs !! i = Some (cls, bases) → defs !! j = Some (derived, bases') →
              cls ∈ bases' → (i < j)%nat).
    { intros i j c b d' b' Hi Hj. apply (Horder i j c b d' b').
      - rewrite lookup_app_l; [exact Hi|]. apply lookup_lt_Some in Hi. exact Hi.
      - rewrite lookup_app_l; [exact Hj|]. apply lookup_lt_Some in Hj. exact Hj. }
    rewrite (IH Horder' cls). split.
    + intros [Hcls Hnot]. split.
      * destruct Hcls as [->|[[bases Hin] _]].
        -- exists bs. apply elem_of_app. right. left.
        -- exists bases. apply elem_of_app. left. exact Hin.
      * intros derived bases' Hin. apply elem_of_app in Hin as [Hin|Hin].
        -- destruct Hcls as [->|[_ Hnone]]; [|apply (Hnone _ _ Hin)].
           intros Hbase. apply list_elem_of_lookup in Hin as [j Hj].
           assert (Hlt : (length defs < j)%nat).
           { apply (Horder (length defs) j d bs derived bases').
             - rewrite lookup_app_r by lia. rewrite Nat.sub_diag. reflexivity.
             - rewrite lookup_app_l; [exact Hj|]. apply lookup_lt_Some in Hj. exact Hj.
             - exact Hbase. }
           apply lookup_lt_Some in Hj. lia.
        -- apply list_elem_of_singleton in Hin. injection Hin as -> ->. exact Hnot.
    + intros [[bases Hin] Hnone]. split.
      * apply elem_of_app in Hin as [Hin|Hin].
        -- right. split; [exists bases; exact Hin|].
           intros derived bases' Hin'. apply (Hnone derived bases').
           apply elem_of_app. left. exact Hin'.
        -- left. apply list_elem_of_singleton in Hin. injection Hin as -> _.
           reflexivity.
      * apply (Hnone d bs). apply elem_of_app. right. left.
Qed.

Lemma first_present_spec (present : locator → bool)
    (element_locator : string → option locator) (types : list string) :
  (∀ cls, cls ∈ types → is_Some (element_locator cls)) →
  match first_present present element_locator types with
  | Value form_type =>
      form_type ∈ types ∧
      ∃ loc, element_locator form_type = Some loc ∧ present loc = true
  | Error e =>
      e = UnknownFormFieldTypeException ∧
      ∀ cls loc, cls ∈ types → element_locator cls = Some loc → present loc = false
  end.
Proof.
  induction types as [|cls types IH]; intros Hloc; simpl.
  - split; [reflexivity|]. intros cls loc Hin. inversion Hin.
  - destruct (Hloc cls (list_elem_of_here _ _)) as [loc Hcls]. rewrite Hcls.
    destruct (present loc) eqn:Hpresent.
    + split; [left|]. exists loc. split; assumption.
    + specialize (IH (λ c Hc, Hloc c (list_elem_of_further _ _ _ Hc))).
      destruct (first_present present element_locator types) as [form_type|e].
      * destruct IH as [Hin Hfound]. split; [right; exact Hin|exact Hfound].
      * destruct IH as [-> Hnone]. split; [reflexivity|].
        intros c l Hin Hc. apply elem_of_cons in Hin as [->|Hin].
        -- rewrite Hcls in Hc. injection Hc as <-. exact Hpresent.
        -- apply (Hnone c l Hin Hc).
Qed.

(** X23. When every registered class has an element locator,
    [make_form_field] returns a registered class whose element is present,
    and raises [UnknownFormFieldTypeException] only when the element of no
    registered class is present, in whatever order the registry is
    iterated. *)
Theorem make_form_field_finds_present_type (registry : gset string)
    (element_locator : string → option locator) (present : locator → bool) :
  (∀ cls, cls ∈ registry → is_Some (element_locator cls)) →
  match make_form_field registry element_locator present with
  | Value form_type =>
      form_type ∈ registry ∧
      ∃ loc, element_locator form_type = Some loc ∧ present loc = true
  | Error e =>
      e = UnknownFormFieldTypeException ∧
      ∀ cls loc, cls ∈ registry → element_locator cls = Some loc → present loc = false
  end.
Proof.
  intros Hloc. unfold make_form_field.
  pose proof (first_present_spec present element_locator (set_order registry)) as Hspec.
  destruct (first_present present element_locator (set_order registry)) as [form_type|e].
  - destruct Hspec as [Hin Hfound].
    + intros cls Hcls. apply Hloc, set_order_elem_of, Hcls.
    + split; [apply set_order_elem_of, Hin|exact Hfound].
  - destruct Hspec as [-> Hnone].
    + intros cls Hcls. apply Hloc, set_order_elem_of, Hcls.
    + split; [reflexivity|]. intros cls loc Hcls. apply Hnone, set_order_elem_of, Hcls.
Qed.

(** X24. A second call of [server_list] with the same dictionary is not
    paginated: the first call has popped [paginate], so the second one sends
    the dictionary as the first left it (the [limit] still in it) and returns
    every row with the more-data flag false. *)
Theorem server_list_second_call_not_paginated (request : Request) (d : nat)
    (all_tenants : bool) (w : world) :
  let m' := search_opts_after_call request all_tenants (default ∅ (dicts w !! d)) in
  let w1 := (server_list request (Some d) all_tenants w).2 in
  let t2 := trace w1 ++ [ServersList true m'] in
  let out := server_list request (Some d) all_tenants w1 in
  trace out.2 = t2 ∧
  out.1 = match svc_servers_list nova t2 with
          | Ok rows => Ok (map (λ s, Build_Server s request) rows, false)
          | Raise e => Raise e
          end.
Proof.
  intros m' w1 t2 out.
  destruct (server_list_run request d all_tenants w) as (w1' & Hrun1 & Hdicts & _).
  assert (Hw1 : w1 = w1') by (subst w1; rewrite Hrun1; reflexivity).
  rewrite <- Hw1 in Hdicts. fold m' in Hdicts.
  assert (Hd : default ∅ (dicts w1 !! d) = m')
    by (rewrite Hdicts, lookup_insert_eq; reflexivity).
  assert (Hnone : m' !! "paginate" = None).
  { subst m'. unfold search_opts_after_call.
    destruct (default ∅ (dicts w !! d) !! "paginate") as [p|] eqn:Hp;
      [destruct (truthy p)|]; destruct all_tenants;
      rewrite ?lookup_insert_ne by discriminate;
      rewrite ?lookup_delete_eq; auto. }
  assert (Hfix : search_opts_after_call request all_tenants m' = m').
  { unfold search_opts_after_call at 1. rewrite Hnone.
    subst m'. unfold search_opts_after_call.
    destruct all_tenants; apply insert_insert_eq. }
  destruct (server_list_run request d all_tenants w1) as (w2 & Hrun2 & _ & Htrace).
  rewrite Hd, Hfix, Hnone in Hrun2. rewrite Hd, Hfix in Htrace. fold t2 in Hrun2, Htrace.
  subst out. rewrite Hrun2. simpl. split; [exact Htrace|].
  destruct (svc_servers_list nova t2) as [rows|e]; reflexivity.
Qed.

End Facade.

(** ** The theorems at the concrete scenarios *)

Import Scenario.

(** C2 at the limits of the scenario: the negative [totalRAMUsed] becomes
    zero. *)
Lemma tenant_absolute_limits_sign_correction_witness :
  ∃ limits_dict w',
    tenant_absolute_limits settings url_for (service [] false) request false
      (world_with ∅) = (Ok limits_dict, w') ∧
    limits_dict !! "totalRAMUsed" = Some (LimInt 0).
Proof.
  destruct (tenant_absolute_limits_sign_correction settings url_for (service [] false)
              request false (world_with ∅) limits
              [ {| limit_name := "maxTotalInstances"; limit_value := 10 |};
                {| limit_name := "maxTotalCores"; limit_value := -1 |} ]
              []
              {| limit_name := "totalRAMUsed"; limit_value := -512 |})
    as (limits_dict & w' & Hrun & Hused & _).
  - reflexivity.
  - reflexivity.
  - apply not_elem_of_nil.
  - exists limits_dict, w'. split; [exact Hrun|].
    apply Hused; reflexivity.
Defined.

(** C3 at page size 2: three rows give the first two and the flag, two rows
    give both without the flag. *)
Lemma server_list_pagination_witness :
  (server_list settings url_for (λ _, 2) (service [row "1"; row "2"; row "3"] false)
     request (Some 7%nat) false (world_with paginated)).1 =
    Ok ([Build_Server (row "1") request; Build_Server (row "2") request], true) ∧
  (server_list settings url_for (λ _, 2) (service [row "1"; row "2"] false)
     request (Some 7%nat) false (world_with paginated)).1 =
    Ok ([Build_Server (row "1") request; Build_Server (row "2") request], false).
Proof.
  split.
  - apply (server_list_pagination settings url_for (λ _, 2)
             (service [row "1"; row "2"; row "3"] false) request 7%nat false
             (world_with paginated) 2%nat (PyBool true) [row "1"; row "2"; row "3"]);
      reflexivity.
  - apply (server_list_pagination settings url_for (λ _, 2)
             (service [row "1"; row "2"] false) request 7%nat false
             (world_with paginated) 2%nat (PyBool true) [row "1"; row "2"]);
      first [reflexivity | simpl; lia].
Defined.

(** C3 as stated fails at the result limit: with page size 1000 and no
    [API_RESULT_LIMIT] set, 1000 rows are at most a page, yet the more-data
    flag is true. *)
Lemma server_list_pagination_counterexample :
  (length thousand_rows ≤ 1000)%nat ∧
  (server_list settings url_for (λ _, 1000) (service thousand_rows false)
     request (Some 7%nat) false (world_with paginated)).1 =
    Ok (map (λ s, Build_Server s request) thousand_rows, true) ∧
  (server_list settings url_for (λ _, 1000) (service thousand_rows false)
     request (Some 7%nat) false (world_with paginated)).1 ≠
    Ok (map (λ s, Build_Server s request) thousand_rows, false).
Proof.
  assert (Hrun : (server_list settings url_for (λ _, 1000) (service thousand_rows false)
                    request (Some 7%nat) false (world_with paginated)).1 =
                 Ok (map (λ s, Build_Server s request) thousand_rows, true))
    by (vm_compute; reflexivity).
  split; [vm_compute; reflexivity|]. split; [exact Hrun|].
  rewrite Hrun. intros [=].
Qed.

(** C6 at a result limit of three rows and page size 2: the third row is
    trimmed and the flag is true. *)
Lemma server_list_at_result_limit_witness :
  (server_list small_limit url_for (λ _, 2) (service [row "1"; row "2"; row "3"] false)
     request (Some 7%nat) false (world_with paginated)).1 =
    Ok ([Build_Server (row "1") request; Build_Server (row "2") request], true).
Proof.
  apply (server_list_at_result_limit small_limit url_for (λ _, 2)
           (service [row "1"; row "2"; row "3"] false) request 7%nat false
           (world_with paginated) 2%nat (PyBool true) [row "1"; row "2"; row "3"]);
    reflexivity.
Defined.

(** C6 as stated fails: with page size 1000 and the default result limit,
    a call that gets exactly 1000 rows returns all 1000 of them, none
    trimmed, with the flag true. *)
Lemma server_list_at_result_limit_counterexample :
  Z.of_nat (length thousand_rows) = default 1000 (API_RESULT_LIMIT settings) ∧
  ∃ servers,
    (server_list settings url_for (λ _, 1000) (service thousand_rows false)
       request (Some 7%nat) false (world_with paginated)).1 = Ok (servers, true) ∧
    length servers = length thousand_rows ∧
    servers = map (λ s, Build_Server s request) thousand_rows.
Proof.
  split; [reflexivity|].
  exists (map (λ s, Build_Server s request) thousand_rows).
  split; [vm_compute; reflexivity|]. split; [apply length_map|reflexivity].
Qed.

(** C9 at the paginated dictionary of the scenario: the caller's dictionary
    has lost [paginate] and gained [limit] and [project_id]. *)
Lemma server_list_mutates_search_opts_witness :
  ∃ m',
    dicts (server_list settings url_for (λ _, 2) (service [row "1"] false)
             request (Some 7%nat) false (world_with paginated)).2 !! 7%nat = Some m' ∧
    m' !! "paginate" = None ∧
    m' !! "limit" = Some (PyInt 3) ∧
    m' !! "project_id" = Some (PyStr "tenant-1") ∧
    m' !! "marker" = Some (PyStr "vm-0") ∧
    m' ≠ paginated.
Proof.
  destruct (server_list_mutates_search_opts settings url_for (λ _, 2)
              (service [row "1"] false) request 7%nat false (world_with paginated)
              paginated)
    as (m' & Hd & Hm' & Hpaginate & Hlimit & _ & Hproject & Hne).
  - reflexivity.
  - exists m'. split; [exact Hd|]. split; [exact Hpaginate|].
    split; [apply (Hlimit (PyBool true)); reflexivity|].
    split; [apply Hproject; reflexivity|].
    split; [rewrite Hm'; reflexivity|].
    apply Hne. exists (PyBool true). reflexivity.
Defined.




(** C1 at the scenario, with the sets iterated as [elements] lists them: for
    wanted groups A and B on an instance that has B and C, A is added and
    then C is removed. *)
Lemma update_instance_security_group_reconciles_witness :
  (update_instance_security_group (service [] false) elements manager "i-1" ["1"; "2"]
     (world_with ∅)).1 = Ok true ∧
  trace (update_instance_security_group (service [] false) elements manager "i-1"
           ["1"; "2"] (world_with ∅)).2 =
    [SecurityGroupsList; ClientGet "/servers/i-1/os-security-groups";
     ServersAddSecurityGroup "i-1" "A"; ServersRemoveSecurityGroup "i-1" "C"].
Proof.
  destruct (update_instance_security_group_reconciles (service [] false) elements
              (λ X, reflexivity (elements X)) manager "i-1" ["1"; "2"] (world_with ∅)
              [group "1" "A"; group "2" "B"; group "3" "C"]
              (Some {[ "security_groups" := [group "2" "B"; group "3" "C"] ]}))
    as (_ & _ & _ & _ & _ & _ & Hall & _).
  - reflexivity.
  - reflexivity.
  - destruct Hall as [Hres Htrace].
    + intros i _. unfold call_answer.
      destruct (_ !! i) as [[]|]; reflexivity.
    + split; [exact Hres|]. rewrite Htrace. vm_compute. reflexivity.
Defined.

(** C4 at the scenario where the removal of C is refused with a message that
    names the group and the tenant: the error raised keeps the code 409 and
    says only that one change was not made. *)
Lemma update_instance_security_group_sanitizes_witness :
  (update_instance_security_group (service [] true) elements manager "i-1" ["1"; "2"]
     (world_with ∅)).1 =
    Raise (ClientException 409 "Failed to modify 1 instance security groups").
Proof.
  destruct (update_instance_security_group_sanitizes (service [] true) elements
              (λ X, reflexivity (elements X)) manager "i-1" ["1"; "2"] (world_with ∅)
              [group "1" "A"; group "2" "B"; group "3" "C"]
              (Some {[ "security_groups" := [group "2" "B"; group "3" "C"] ]})
              1%nat 409 "Security group C (tenant-1) is in use")
    as [Hres _].
  - reflexivity.
  - reflexivity.
  - vm_compute. lia.
  - intros [|i] Hi; [vm_compute; reflexivity|lia].
  - vm_compute. reflexivity.
  - rewrite Hres. vm_compute. reflexivity.
Defined.

(** ** The model on small inputs *)

Example endswith_used :
  endswith "totalRAMUsed" "Used" = true ∧ endswith "maxTotalCores" "Used" = false ∧
  endswith "sed" "Used" = false ∧ startswith "totalRAMUsed" "total" = true.
Proof. repeat split. Qed.

Example fmt_d_decimal : fmt_d 12 = "12" ∧ fmt_d 0 = "0" ∧ fmt_d (-3) = "-3".
Proof. repeat split. Qed.

Example join_entries : join ", " ["a"; "b"; "c"] = "a, b, c" ∧ join ", " [] = "".
Proof. split; reflexivity. Qed.

(** Two request contexts with the same credentials get handles that differ
    in their identity only; the first context gets its own handle back. *)
Example novaclient_two_contexts :
  ∃ c1 c2 w1 w2,
    novaclient settings url_for request (world_with ∅) = (Ok c1, w1) ∧
    novaclient settings url_for other_request w1 = (Ok c2, w2) ∧
    novaclient settings url_for request w2 = (Ok c1, w2) ∧
    client_id c1 ≠ client_id c2 ∧
    c_auth_token c1 = c_auth_token c2 ∧ c_management_url c1 = c_management_url c2.
Proof.
  eexists _, _, _, _. split; [vm_compute; reflexivity|].
  split; [vm_compute; reflexivity|]. split; [vm_compute; reflexivity|].
  split; [vm_compute; discriminate|]. split; reflexivity.
Qed.

(** A hypervisor without servers, and one with a server. *)
Example Hypervisor_servers_of_scenario :
  map (λ h, (Hypervisor_servers (Build_Hypervisor h) ()).1) hypervisors =
    [Ok [guest "vm-a" "uuid-a"; guest "vm-b" "uuid-b"]; Ok []; Ok [guest "vm-c" "uuid-c"]].
Proof. reflexivity. Qed.

(** With all evacuations accepted, [evacuate_host] returns [True]. *)
Example evacuate_host_all_accepted :
  (evacuate_host settings url_for (service [] false) request "node" None false
     (world_with ∅)).1 = Ok true.
Proof. vm_compute. reflexivity. Qed.

(** The limits of the scenario after the sign correction. *)
Example limits_of_scenario :
  ∃ w', tenant_absolute_limits settings url_for (service [] false) request false
          (world_with ∅) =
        (Ok {[ "maxTotalInstances" := LimInt 10; "maxTotalCores" := LimInf;
               "totalRAMUsed" := LimInt 0 ]}, w').
Proof. eexists. vm_compute. reflexivity. Qed.

(** ** The further properties at the concrete scenarios *)

(** X1 when the connection is refused at the first call. *)
Lemma update_instance_security_group_list_failure_witness :
  update_instance_security_group
    (faulty (at_call 1 connection_refused) (service [] false)) elements
    manager "i-1" ["1"; "2"] (world_with ∅) =
  (Raise (PyException "Couldn't get security group list."),
   set_trace [SecurityGroupsList] (world_with ∅)).
Proof.
  apply (update_instance_security_group_list_failure
           (faulty (at_call 1 connection_refused) (service [] false)) elements
           manager "i-1" ["1"; "2"] (world_with ∅) connection_refused).
  reflexivity.
Defined.

(** X2 when the connection is refused at the second call. *)
Lemma update_instance_security_group_current_failure_witness :
  update_instance_security_group
    (faulty (at_call 2 connection_refused) (service [] false)) elements
    manager "i-1" ["1"; "2"] (world_with ∅) =
  (Raise (PyException "Couldn't get current security group list for instance i-1."),
   set_trace [SecurityGroupsList; ClientGet "/servers/i-1/os-security-groups"]
     (world_with ∅)).
Proof.
  apply (update_instance_security_group_current_failure
           (faulty (at_call 2 connection_refused) (service [] false)) elements
           manager "i-1" ["1"; "2"] (world_with ∅)
           [group "1" "A"; group "2" "B"; group "3" "C"] connection_refused);
    reflexivity.
Defined.

(** X3 when the connection is refused at the addition of A: the error is
    raised as it is and C is not removed. *)
Lemma update_instance_security_group_stops_at_failure_witness :
  (update_instance_security_group
     (faulty (at_call 3 connection_refused) (service [] false)) elements
     manager "i-1" ["1"; "2"] (world_with ∅)).1 = Raise connection_refused ∧
  trace (update_instance_security_group
           (faulty (at_call 3 connection_refused) (service [] false)) elements
           manager "i-1" ["1"; "2"] (world_with ∅)).2 =
    [SecurityGroupsList; ClientGet "/servers/i-1/os-security-groups";
     ServersAddSecurityGroup "i-1" "A"].
Proof.
  destruct (update_instance_security_group_stops_at_failure
              (faulty (at_call 3 connection_refused) (service [] false)) elements
              (λ X, reflexivity (elements X)) manager "i-1" ["1"; "2"] (world_with ∅)
              [group "1" "A"; group "2" "B"; group "3" "C"]
              (Some {[ "security_groups" := [group "2" "B"; group "3" "C"] ]})
              0%nat connection_refused)
    as [Htrace Hres].
  - reflexivity.
  - reflexivity.
  - vm_compute. lia.
  - intros i Hi. lia.
  - vm_compute. reflexivity.
  - split; [apply Hres; intros code message; discriminate|].
    rewrite Htrace. vm_compute. reflexivity.
Defined.

(** X4 when the wanted groups are B and C, which the instance has. *)
Lemma update_instance_security_group_already_reconciled_witness :
  update_instance_security_group (service [] false) elements manager "i-1" ["2"; "3"]
    (world_with ∅) =
  (Ok true,
   set_trace [SecurityGroupsList; ClientGet "/servers/i-1/os-security-groups"]
     (world_with ∅)).
Proof.
  apply (update_instance_security_group_already_reconciled (service [] false) elements
           (λ X, reflexivity (elements X)) manager "i-1" ["2"; "3"] (world_with ∅)
           [group "1" "A"; group "2" "B"; group "3" "C"]
           (Some {[ "security_groups" := [group "2" "B"; group "3" "C"] ]}));
    reflexivity.
Defined.

(** X5 with an unknown identifier, a repetition and another order. *)
Lemma update_instance_security_group_ids_as_selection_witness :
  update_instance_security_group (service [] false) elements manager "i-1"
    ["2"; "no-such-group"; "1"; "2"] (world_with ∅) =
  update_instance_security_group (service [] false) elements manager "i-1"
    ["1"; "2"] (world_with ∅).
Proof.
  apply (update_instance_security_group_ids_as_selection (service [] false) elements
           manager "i-1" ["2"; "no-such-group"; "1"; "2"] ["1"; "2"] (world_with ∅)
           [group "1" "A"; group "2" "B"; group "3" "C"]).
  - reflexivity.
  - intros g Hg.
    repeat (apply elem_of_cons in Hg as [->|Hg]); [..|inversion Hg]; simpl;
      rewrite !elem_of_cons, !elem_of_nil; split; intros H;
      repeat (destruct H as [H|H]); try discriminate; tauto.
Defined.

(** X6 at the scenario: the dictionary of the caller at 7 is left alone. *)
Lemma server_list_without_search_opts_witness :
  (server_list settings url_for (λ _, 2) (service [row "1"; row "2"; row "3"] false)
     request None false (world_with paginated)).1 =
    Ok ([Build_Server (row "1") request; Build_Server (row "2") request;
         Build_Server (row "3") request], false) ∧
  dicts (server_list settings url_for (λ _, 2)
           (service [row "1"; row "2"; row "3"] false)
           request None false (world_with paginated)).2 !! 7%nat = Some paginated.
Proof.
  destruct (server_list_without_search_opts settings url_for (λ _, 2)
              (service [row "1"; row "2"; row "3"] false) request false
              (world_with paginated))
    as (Hres & _ & Hframe).
  - intros d Hd. apply lookup_singleton_ne. simpl in Hd. lia.
  - split; [exact Hres|]. apply Hframe. reflexivity.
Defined.

(** X7 with a dictionary that only holds a marker: three rows at page size
    2 are all returned, without the flag. *)
Lemma server_list_not_paginated_witness :
  (server_list settings url_for (λ _, 2) (service [row "1"; row "2"; row "3"] false)
     request (Some 7%nat) false (world_with {[ "marker" := PyStr "vm-0" ]})).1 =
    Ok ([Build_Server (row "1") request; Build_Server (row "2") request;
         Build_Server (row "3") request], false).
Proof.
  apply (server_list_not_paginated settings url_for (λ _, 2)
           (service [row "1"; row "2"; row "3"] false) request 7%nat false
           (world_with {[ "marker" := PyStr "vm-0" ]})).
  reflexivity.
Defined.

(** X9 with five rows at page size 2: four rows are returned. *)
Lemma server_list_drops_one_row_witness :
  (server_list settings url_for (λ _, 2)
     (service [row "1"; row "2"; row "3"; row "4"; row "5"] false)
     request (Some 7%nat) false (world_with paginated)).1 =
    Ok ([Build_Server (row "1") request; Build_Server (row "2") request;
         Build_Server (row "3") request; Build_Server (row "4") request], true).
Proof.
  apply (server_list_drops_one_row settings url_for (λ _, 2)
           (service [row "1"; row "2"; row "3"; row "4"; row "5"] false)
           request 7%nat false (world_with paginated) (PyBool true)
           [row "1"; row "2"; row "3"; row "4"; row "5"]);
    first [reflexivity | simpl; lia].
Defined.

(** X10 at page size -1. *)
Lemma server_list_negative_page_size_witness :
  (server_list settings url_for (λ _, -1) (service [] false)
     request (Some 7%nat) false (world_with paginated)).1 =
    Raise (IndexError "pop from empty list").
Proof.
  apply (server_list_negative_page_size settings url_for (λ _, -1) (service [] false)
           request 7%nat false (world_with paginated) (PyBool true));
    first [reflexivity | lia].
Defined.

(** X11 at the limits of the scenario. *)
Lemma tenant_absolute_limits_never_negative_witness :
  ∃ limits_dict w',
    tenant_absolute_limits settings url_for (service [] false) request true
      (world_with ∅) = (Ok limits_dict, w') ∧
    dom limits_dict = {[ "maxTotalInstances"; "maxTotalCores"; "totalRAMUsed" ]} ∧
    (∀ name v, limits_dict !! name = Some (LimInt v) → 0 ≤ v).
Proof.
  destruct (tenant_absolute_limits_never_negative settings url_for (service [] false)
              request true (world_with ∅) limits)
    as (limits_dict & w' & Hrun & _ & Hdom & Hval).
  - reflexivity.
  - exists limits_dict, w'. split; [exact Hrun|]. split; [|exact Hval].
    rewrite Hdom. vm_compute. reflexivity.
Defined.

(** X12 when the connection is refused at the evacuation of [vm-b]: the
    error is raised as it is and [vm-c] is not evacuated. *)
Lemma evacuate_host_stops_at_other_error_witness :
  (evacuate_host settings url_for
     (faulty (at_call 3 connection_refused) (service [] false)) request "node" None
     false (world_with ∅)).1 = Raise connection_refused ∧
  trace (evacuate_host settings url_for
           (faulty (at_call 3 connection_refused) (service [] false)) request "node"
           None false (world_with ∅)).2 =
    [HypervisorsSearch "node" true; ServersEvacuate "uuid-a" None false;
     ServersEvacuate "uuid-b" None false].
Proof.
  destruct (evacuate_host_stops_at_other_error settings url_for
              (faulty (at_call 3 connection_refused) (service [] false)) request "node"
              None false (world_with ∅) hypervisors
              [guest "vm-a" "uuid-a"] [guest "vm-c" "uuid-c"] (guest "vm-b" "uuid-b")
              connection_refused)
    as [Hres Htrace].
  - reflexivity.
  - reflexivity.
  - intros [|i] server Hi; [|destruct i; discriminate].
    injection Hi as <-. split; [split; eexists; reflexivity|].
    intros e He. vm_compute in He. discriminate.
  - eexists. reflexivity.
  - reflexivity.
  - intros code message. discriminate.
  - split; [exact Hres|]. rewrite Htrace. reflexivity.
Defined.

(** X13 with a server entry that has lost its [uuid]. *)
Lemma evacuate_host_missing_uuid_witness :
  (evacuate_host settings url_for (with_hypervisors damaged_hypervisors (service [] false))
     request "node" None false (world_with ∅)).1 = Raise (KeyError "uuid") ∧
  trace (evacuate_host settings url_for
           (with_hypervisors damaged_hypervisors (service [] false))
           request "node" None false (world_with ∅)).2 =
    [HypervisorsSearch "node" true; ServersEvacuate "uuid-a" None false].
Proof.
  destruct (evacuate_host_missing_uuid settings url_for
              (with_hypervisors damaged_hypervisors (service [] false)) request "node"
              None false (world_with ∅) damaged_hypervisors
              [guest "vm-a" "uuid-a"] [guest "vm-c" "uuid-c"] {[ "name" := "vm-b" ]})
    as [Hres Htrace].
  - reflexivity.
  - reflexivity.
  - intros [|i] server Hi; [|destruct i; discriminate].
    injection Hi as <-. split; [split; eexists; reflexivity|].
    intros e He. vm_compute in He. discriminate.
  - reflexivity.
  - split; [exact Hres|]. rewrite Htrace. reflexivity.
Defined.

(** X14 with hypervisors that run nothing. *)
Lemma evacuate_host_nothing_to_evacuate_witness :
  (evacuate_host settings url_for (with_hypervisors idle_hypervisors (service [] true))
     request "node" None false (world_with ∅)).1 = Ok true ∧
  trace (evacuate_host settings url_for
           (with_hypervisors idle_hypervisors (service [] true))
           request "node" None false (world_with ∅)).2 = [HypervisorsSearch "node" true].
Proof.
  apply (evacuate_host_nothing_to_evacuate settings url_for
           (with_hypervisors idle_hypervisors (service [] true)) request "node" None
           false (world_with ∅) idle_hypervisors).
  - reflexivity.
  - constructor; [left; reflexivity|]. constructor; [right; reflexivity|]. constructor.
Defined.

(** X15 for the two contexts of the scenario, from the empty cache. *)
Lemma novaclient_distinct_contexts_witness :
  ∃ c1 c2 w1 w2,
    novaclient settings url_for request (world_with ∅) = (Ok c1, w1) ∧
    novaclient settings url_for other_request w1 = (Ok c2, w2) ∧
    client_id c1 ≠ client_id c2.
Proof.
  destruct (novaclient_distinct_contexts settings url_for request other_request
              (world_with ∅))
    as (c1 & c2 & w1 & w2 & Hrun1 & Hrun2 & Hne & _).
  - split.
    + intros i c Hi. simpl in Hi. rewrite lookup_empty in Hi. discriminate.
    + intros i j c c' Hi. simpl in Hi. rewrite lookup_empty in Hi. discriminate.
  - discriminate.
  - exists c1, c2, w1, w2. split; [exact Hrun1|]. split; [exact Hrun2|exact Hne].
Defined.

(** X16 with empty metadata. *)
Lemma flavor_extra_set_without_metadata_witness :
  trace (flavor_extra_set settings url_for (service [] false) request "42" (Some ∅)
           (world_with ∅)).2 = [FlavorsGet "42"] ∧
  (flavor_extra_set settings url_for (service [] false) request "42" (Some ∅)
     (world_with ∅)).1 = Ok None.
Proof.
  apply (flavor_extra_set_without_metadata settings url_for (service [] false) request
           "42" (Some ∅) (world_with ∅)).
  reflexivity.
Defined.

(** X17 when the connection is refused at [set_keys]. *)
Lemma flavor_create_metadata_failure_witness :
  (flavor_create settings url_for
     (faulty (at_call 3 connection_refused) (service [] false)) request "m1.demo" 512 1 1
     "auto" 0 0 (Some {[ "quota:disk" := "fast" ]}) true (world_with ∅)).1 =
    Raise connection_refused.
Proof.
  apply (flavor_create_metadata_failure settings url_for
           (faulty (at_call 3 connection_refused) (service [] false)) request "m1.demo"
           512 1 1 "auto" 0 0 (Some {[ "quota:disk" := "fast" ]}) true (world_with ∅)
           {| fl_id := "42"; fl_name := "m1.demo" |} connection_refused).
  - reflexivity.
  - reflexivity.
  - right. exists {| fl_id := "42"; fl_name := "m1.demo" |}. split; reflexivity.
Defined.

(** X18 for the two aggregates of the scenario, whose details carry the
    length of the history at which they were asked for. *)
Lemma aggregate_details_list_in_order_witness :
  ∃ details,
    (aggregate_details_list settings url_for (service [] false) request
       (world_with ∅)).1 = Ok details ∧
    length details = 2%nat ∧
    details !! 1%nat = Some {| agg_id := 3; agg_name := "details" |}.
Proof.
  destruct (aggregate_details_list_in_order settings url_for (service [] false) request
              (world_with ∅)
              [ {| agg_id := 1; agg_name := "rack-1" |};
                {| agg_id := 2; agg_name := "rack-2" |} ])
    as (details & Hres & Hlen & Hnth).
  - reflexivity.
  - intros i Hi. eexists. reflexivity.
  - exists details. split; [exact Hres|]. split; [exact Hlen|].
    destruct (details !! 1%nat) as [d|] eqn:Hd.
    + specialize (Hnth 1%nat d Hd). vm_compute in Hnth. injection Hnth as <-.
      reflexivity.
    + apply lookup_ge_None in Hd. simpl in Hlen. lia.
Defined.

(** X19 with the ended server of the scenario between two running ones. *)
Lemma usage_ignores_ended_servers_witness :
  vcpus {| server_usages := [running; ended; protected] |} = Value 3 ∧
  memory_mb {| server_usages := [running; ended; protected] |} =
    memory_mb {| server_usages := [running; protected] |}.
Proof.
  destruct (usage_ignores_ended_servers [running] [protected] ended)
    as (_ & Hvcpus & _ & Hmemory & _).
  - exists (UScalar (SStr "2014-11-04T10:00:00")). split; [reflexivity|discriminate].
  - split; [|exact Hmemory].
    transitivity (vcpus {| server_usages := [running] ++ [protected] |});
      [exact Hvcpus|reflexivity].
Defined.

(** X20 with two running servers and one that has ended. *)
Lemma total_active_instances_counts_active_witness :
  total_active_instances {| server_usages := [running; ended; protected] |} = Value 2.
Proof.
  destruct (total_active_instances_counts_active [running; ended; protected] [] ∅)
    as [Hcount _].
  - repeat constructor; eexists; reflexivity.
  - rewrite Hcount. vm_compute. reflexivity.
Defined.

(** The classes of [forms.py] are each defined before the classes derived
    from them. *)
Lemma form_field_classes_in_order :
  ∀ i j cls bases derived bases',
    form_field_classes !! i = Some (cls, bases) →
    form_field_classes !! j = Some (derived, bases') →
    cls ∈ bases' → (i < j)%nat.
Proof.
  intros i j cls bases derived bases' Hi Hj Hin.
  do 9 (destruct j as [|j]; [injection Hj as <- <-;
        apply list_elem_of_singleton in Hin; subst cls;
        do 9 (destruct i as [|i]; [try discriminate Hi; lia|]); discriminate Hi|]).
  discriminate Hj.
Defined.

(** X22 for the classes of [forms.py]: the text input class is registered,
    its base class is not. *)
Lemma registry_holds_leaf_classes_witness :
  "TextInputFormFieldRegion" ∈ define_field_classes ∅ form_field_classes ∧
  "BaseTextFormFieldRegion" ∉ define_field_classes ∅ form_field_classes.
Proof.
  pose proof (registry_holds_leaf_classes form_field_classes form_field_classes_in_order)
    as Hleaf.
  split.
  - apply Hleaf. split.
    + exists ["BaseTextFormFieldRegion"]. do 4 right. left.
    + intros derived bases' Hin Hbase.
      repeat (apply elem_of_cons in Hin as [Hin|Hin];
              [injection Hin as -> ->; apply list_elem_of_singleton in Hbase;
               discriminate|]).
      inversion Hin.
  - intros Hin. apply Hleaf in Hin as [_ Hnone].
    apply (Hnone "TextInputFormFieldRegion" ["BaseTextFormFieldRegion"]).
    + do 4 right. left.
    + left.
Defined.

(** The registry once [forms.py] is loaded: the seven concrete classes, each
    with an element locator. *)
Example form_field_registry :
  define_field_classes ∅ form_field_classes =
    {[ "CheckBoxFormFieldRegion"; "ChooseFileFormFieldRegion";
       "TextInputFormFieldRegion"; "PasswordInputFormFieldRegion";
       "TextAreaFormFieldRegion"; "IntegerFormFieldRegion"; "SelectFormFieldRegion" ]} ∧
  Forall (λ cls, is_Some (form_field_locator cls))
    (elements (define_field_classes ∅ form_field_classes)).
Proof.
  split; [vm_compute; reflexivity|].
  vm_compute elements. repeat constructor; eexists; reflexivity.
Qed.

(** X23 on the registry of [forms.py], with only a text area under the
    source element. *)
Lemma make_form_field_finds_present_type_witness :
  make_form_field elements (define_field_classes ∅ form_field_classes)
    form_field_locator
    (λ loc, String.eqb loc.2 "div > textarea") = Value "TextAreaFormFieldRegion" ∧
  "TextAreaFormFieldRegion" ∈ define_field_classes ∅ form_field_classes.
Proof.
  pose proof (make_form_field_finds_present_type elements (λ X, reflexivity (elements X))
                (define_field_classes ∅ form_field_classes) form_field_locator
                (λ loc, String.eqb loc.2 "div > textarea")) as Hfound.
  assert (Hloc : ∀ cls, cls ∈ define_field_classes ∅ form_field_classes →
                        is_Some (form_field_locator cls)).
  { intros cls Hcls. apply elem_of_elements in Hcls.
    destruct form_field_registry as [_ Hall].
    rewrite Forall_forall in Hall. apply Hall. exact Hcls. }
  specialize (Hfound Hloc).
  assert (Hrun : make_form_field elements (define_field_classes ∅ form_field_classes)
                   form_field_locator (λ loc, String.eqb loc.2 "div > textarea") =
                 Value "TextAreaFormFieldRegion") by (vm_compute; reflexivity).
  rewrite Hrun in Hfound. destruct Hfound as [Hin _].
  split; [exact Hrun|exact Hin].
Defined.
